(** * The all-link database of an Insteon device (insteon_mqtt/db/Device.py)

    A shallow embedding of class [Device] and of the add/delete protocol
    it runs against the remote device, followed by the properties of the
    specification that were checked against it.

    Conventions of the embedding:
    - Python objects are modelled by value.  The class relies on nobody
      keeping a handle to an entry outside of it (see the NOTE in
      [add_entry]); under that discipline no object held by [entries] or
      [groups] is ever mutated in place, so values are faithful.  The one
      in-place update, [update_from] in [_add_using_unused], is applied
      to an object that has just been popped from [unused].
    - [entries] and [unused] are Python dicts whose iteration order is
      visible through [to_json]: they are insertion-ordered association
      lists ([PyDict]).  [groups] is only ever looked up by key and
      [_mem_locs] is a set: they are a [gmap] and a [gset].
    - Statements run in a small state-and-exception monad over the
      [World]: the database, the writes handed to [protocol.send], the
      handlers that await a reply, the calls made to user callbacks and
      the log.  A user callback is opaque: calling it is recorded and
      does nothing else.
    - [save] writes [to_json] to a file and changes no field of the
      object; the file system is not part of the modelled state, and
      neither are its errors (those of [open], [json.dump] and
      [os.remove]).  Arguments have the documented types, on which
      [Address(addr)] and [int(group)] are the identity and do not
      raise.  The exceptions of the model are those of the container
      operations of Device.py and of its [assert].
    - Address, DbFlags, DeviceEntry and handler.DeviceDbModify are not
      part of Device.py.  Their fields are those Device.py reads and
      writes; what their methods do is modelled from the specification,
      each under a comment that says so.  An entry is truthy ([if
      entry:], [if not last_entry:] test for [None]) and assertions are
      enabled. *)

From Stdlib Require Import ZArith List Bool Lia String.
From Stdlib.Strings Require Import Byte.
From stdpp Require Import gmap list.

Local Open Scope Z_scope.

(** ** Python exceptions and the dict used for [entries] and [unused] *)

Inductive exn : Type :=
| AssertionError
| ValueError
| IndexError
| TypeError
| KeyError.

Module PyDict.
Section Dict.
Context {V : Type}.

Definition t : Type := list (Z * V).

(** [d.get(k, None)] *)
Fixpoint get (d : t) (k : Z) : option V :=
  match d with
  | [] => None
  | (k', v) :: d' => if k' =? k then Some v else get d' k
  end.

(** [d[k] = v]: an existing key keeps its position, a new key goes last. *)
Fixpoint set (d : t) (k : Z) (v : V) : t :=
  match d with
  | [] => [(k, v)]
  | (k', v') :: d' =>
      if k' =? k then (k, v) :: d' else (k', v') :: set d' k v
  end.

(** The dict left by [d.pop(k)]. *)
Fixpoint remove (d : t) (k : Z) : t :=
  match d with
  | [] => []
  | (k', v) :: d' => if k' =? k then d' else (k', v) :: remove d' k
  end.

Definition keys (d : t) : list Z := map fst d.
Definition values (d : t) : list V := map snd d.

(** What every Python dict satisfies: keys are unique. *)
Definition wf (d : t) : Prop := NoDup (keys d).
End Dict.
Arguments t : clear implicits.
End PyDict.

(** [max(...)] and [min(...)] of a sequence; [None] stands for the
    [ValueError] raised on an empty one. *)
Definition py_max (l : list Z) : option Z :=
  match l with
  | [] => None
  | x :: l' => Some (fold_left Z.max l' x)
  end.

Definition py_min (l : list Z) : option Z :=
  match l with
  | [] => None
  | x :: l' => Some (fold_left Z.min l' x)
  end.

(** ** Link records (Msg.DbFlags and DeviceEntry) *)

(** [Address(addr)] and [int(group)] normalise their argument; an address
    is its 24-bit id and a group a number. *)
Definition Address : Type := Z.

Record DbFlags : Type := mkDbFlags {
  in_use : bool;
  is_controller : bool;
  is_last_rec : bool
}.

Module DeviceEntry.

(** [e.is_controller], which [find] reads, and [e.db_flags.is_controller],
    which [add_entry] reads, are the one role flag of the record. *)
Record t : Type := mk {
  addr : Address;
  group : Z;
  mem_loc : Z;
  db_flags : DbFlags;
  data : list byte
}.

(** Modelled from the spec: DeviceEntry.py is not under src/.  The group
    index appends an entry "unless already present (by identity/equality
    on peer+slot)", so equality of entries compares peer and slot.  It is
    used by [py_in] only, and no statement below turns on it. *)
Definition eqb (a b : t) : bool :=
  (addr a =? addr b) && (mem_loc a =? mem_loc b).

(** Modelled from the spec: [update_from] of DeviceEntry.py (not under
    src/) repurposes a record in place: "overwrite
    peer/group/role/payload, flip in-use true".  The slot address and the
    last-record flag are kept. *)
Definition update_from (e : t) (a : Address) (g : Z) (ctrl : bool)
    (d : list byte) : t :=
  mk a g (mem_loc e) (mkDbFlags true ctrl (is_last_rec (db_flags e))) d.

(** Modelled from the spec: [copy] of DeviceEntry.py (not under src/)
    gives a record of its own ("copy the target entry, flip its in-use
    flag").  This is [c = e.copy()] followed by [c.db_flags.in_use = b]. *)
Definition set_in_use (e : t) (b : bool) : t :=
  mk (addr e) (group e) (mem_loc e)
     (mkDbFlags b (is_controller (db_flags e)) (is_last_rec (db_flags e)))
     (data e).

(** Modelled from the spec: [copy] as above.  This is [c = e.copy()]
    followed by [c.db_flags.is_last_rec = b]. *)
Definition set_is_last_rec (e : t) (b : bool) : t :=
  mk (addr e) (group e) (mem_loc e)
     (mkDbFlags (in_use (db_flags e)) (is_controller (db_flags e)) b)
     (data e).

End DeviceEntry.

(** [x in l] on a list of entries. *)
Definition py_in (x : DeviceEntry.t) (l : list DeviceEntry.t) : bool :=
  existsb (DeviceEntry.eqb x) l.

(** The loop of [add_entry] that deletes the first responder whose
    address is [a] and stops. *)
Fixpoint del_first_addr (a : Address) (l : list DeviceEntry.t)
    : list DeviceEntry.t :=
  match l with
  | [] => []
  | r :: l' =>
      if DeviceEntry.addr r =? a then l' else r :: del_first_addr a l'
  end.

(** ** The database object *)

(** What a user-supplied [on_done] is to the database: an opaque
    callable, identified by a number. *)
Definition Callback : Type := nat.

(** An element of [_pending]: the dummy [True] pushed by the call that
    runs at once, or a [functools.partial] of a deferred call. *)
Inductive Pending : Type :=
| PendingTrue
| PendingAdd (addr : Address) (group : Z) (is_controller : bool)
    (data : option (list byte)) (on_done : option Callback)
| PendingDelete (entry : DeviceEntry.t) (on_done : option Callback).

Record Device : Type := mkDevice {
  addr : Address;
  save_path : option string;
  delta : option Z;
  entries : PyDict.t DeviceEntry.t;
  unused : PyDict.t DeviceEntry.t;
  groups : gmap Z (list DeviceEntry.t);
  _mem_locs : gset Z;
  _pending : list Pending
}.

(** [Device.__init__] *)
Definition __init__ (addr : Address) (path : option string) : Device :=
  mkDevice addr path None [] [] ∅ ∅ [].

Definition set_entries (self : Device) (x : PyDict.t DeviceEntry.t) : Device :=
  mkDevice (addr self) (save_path self) (delta self) x (unused self)
    (groups self) (_mem_locs self) (_pending self).

Definition set_unused (self : Device) (x : PyDict.t DeviceEntry.t) : Device :=
  mkDevice (addr self) (save_path self) (delta self) (entries self) x
    (groups self) (_mem_locs self) (_pending self).

Definition set_groups (self : Device) (x : gmap Z (list DeviceEntry.t))
    : Device :=
  mkDevice (addr self) (save_path self) (delta self) (entries self)
    (unused self) x (_mem_locs self) (_pending self).

Definition set_mem_locs (self : Device) (x : gset Z) : Device :=
  mkDevice (addr self) (save_path self) (delta self) (entries self)
    (unused self) (groups self) x (_pending self).

Definition set_pending (self : Device) (x : list Pending) : Device :=
  mkDevice (addr self) (save_path self) (delta self) (entries self)
    (unused self) (groups self) (_mem_locs self) x.

Definition is_current (self : Device) (d : option Z) : bool :=
  bool_decide (d = delta self).

(** [set_delta]: the [save] it triggers changes no field. *)
Definition set_delta (self : Device) (d : option Z) : Device :=
  mkDevice (addr self) (save_path self) d (entries self) (unused self)
    (groups self) (_mem_locs self) (_pending self).

(** [clear]: [_pending] is not one of the fields it resets. *)
Definition clear (self : Device) : Device :=
  mkDevice (addr self) (save_path self) None [] [] ∅ ∅ (_pending self).

Definition set_path (self : Device) (path : option string) : Device :=
  mkDevice (addr self) path (delta self) (entries self) (unused self)
    (groups self) (_mem_locs self) (_pending self).

(** [__len__] *)
Definition __len__ (self : Device) : nat := length (entries self).

Definition find_group (self : Device) (g : Z) : list DeviceEntry.t :=
  default [] (groups self !! g).

Definition find (self : Device) (a : Address) (g : Z) (ctrl : bool)
    : option DeviceEntry.t :=
  List.find
    (fun e => (DeviceEntry.addr e =? a) && (DeviceEntry.group e =? g)
              && Bool.eqb (is_controller (DeviceEntry.db_flags e)) ctrl)
    (PyDict.values (entries self)).

Definition find_mem_loc (self : Device) (m : Z) : option DeviceEntry.t :=
  PyDict.get (entries self) m.

Definition find_all (self : Device) (a : option Address) (g : option Z)
    (ctrl : option bool) : list DeviceEntry.t :=
  List.filter
    (fun e =>
       match a with Some a => DeviceEntry.addr e =? a | None => true end
       && match g with Some g => DeviceEntry.group e =? g | None => true end
       && match ctrl with
          | Some c => Bool.eqb (is_controller (DeviceEntry.db_flags e)) c
          | None => true
          end)
    (PyDict.values (entries self)).

(** [add_entry]: the local insert, without any traffic to the device. *)
Definition add_entry (self : Device) (entry : DeviceEntry.t) : Device :=
  let m := DeviceEntry.mem_loc entry in
  let g := DeviceEntry.group entry in
  if in_use (DeviceEntry.db_flags entry) then
    let self := set_entries self (PyDict.set (entries self) m entry) in
    let self := set_mem_locs self ({[m]} ∪ _mem_locs self) in
    if is_controller (DeviceEntry.db_flags entry) then
      (* responders = self.groups.setdefault(entry.group, []) *)
      let responders := default [] (groups self !! g) in
      let responders :=
        if py_in entry responders then responders else responders ++ [entry] in
      set_groups self (<[g := responders]> (groups self))
    else self
  else
    let self := set_unused self (PyDict.set (unused self) m entry) in
    let self := set_mem_locs self ({[m]} ∪ _mem_locs self) in
    if is_controller (DeviceEntry.db_flags entry) then
      match groups self !! g with
      | Some responders =>
          set_groups self
            (<[g := del_first_addr (DeviceEntry.addr entry) responders]>
               (groups self))
      | None => self
      end
    else self.

(** ** The document form *)

(** Modelled from the spec: [DeviceEntry.to_json] and
    [DeviceEntry.from_json] (DeviceEntry.py, not under src/) convert an
    entry to and from its document fields; the document keeps the entry
    itself, which makes them inverse to each other. *)
Record Document : Type := mkDocument {
  doc_address : Address;
  doc_delta : option Z;
  doc_used : list DeviceEntry.t;
  doc_unused : list DeviceEntry.t
}.

Definition to_json (self : Device) : Document :=
  mkDocument (addr self) (delta self)
    (PyDict.values (entries self)) (PyDict.values (unused self)).

Definition from_json (d : Document) (path : option string) : Device :=
  let obj := __init__ (doc_address d) path in
  (* obj.delta = data['delta'] *)
  let obj := set_delta obj (doc_delta d) in
  let obj := fold_left add_entry (doc_used d) obj in
  fold_left add_entry (doc_unused d) obj.

(** ** Messages, the transport and the world around the database *)

(** [Msg.OutExtended.direct(self.addr, 0x2f, 0x00, ext_data)] with
    [ext_data = entry.to_bytes()].  The byte encoding belongs to
    DeviceEntry.py (not under src/); a message carries the record its
    payload encodes. *)
Record Msg : Type := mkMsg {
  to_addr : Address;
  cmd1 : Z;
  cmd2 : Z;
  ext_data : DeviceEntry.t
}.

(** The two [done_cb] closures: each closes over the database and the
    [on_done] of the call that created it. *)
Inductive DoneCb : Type :=
| add_done_cb (on_done : option Callback)
| delete_done_cb (on_done : option Callback).

(** The [on_done] a [done_cb] closure has captured. *)
Definition captured (cb : DoneCb) : option Callback :=
  match cb with add_done_cb f | delete_done_cb f => f end.

(** The state of a [handler.DeviceDbModify]: the entry of the write that
    awaits its reply, the completion callback, and the writes added by
    [add_update]. *)
Record DeviceDbModify : Type := mkHandler {
  h_entry : DeviceEntry.t;
  h_on_done : DoneCb;
  h_next : list (Msg * DeviceEntry.t)
}.

Definition add_update (h : DeviceDbModify) (msg : Msg) (entry : DeviceEntry.t)
    : DeviceDbModify :=
  mkHandler (h_entry h) (h_on_done h) (h_next h ++ [(msg, entry)]).

Inductive Level : Type := DEBUG | INFO | WARNING | ERROR.

(** The [message] argument of [on_done(success, message, entry)]: a
    text of Device.py itself, or the text the handler passes along with
    the outcome of an exchange.  The wording of the latter belongs to
    handler.DeviceDbModify (not under src/); it is kept apart by the
    outcome it reports and is never looked into. *)
Inductive Message : Type :=
| Literal (s : string)
| HandlerText (success : bool).

Bind Scope string_scope with Message.
Coercion Literal : string >-> Message.

(** One invocation [on_done(success, message, entry)] of a user callback. *)
Record Call : Type := mkCall {
  c_fn : Callback;
  c_success : bool;
  c_message : Message;
  c_entry : option DeviceEntry.t
}.

(** The database together with what it acts on: the writes the transport
    has observed, in order; the handlers whose exchange awaits a reply;
    the user callbacks invoked so far; the log. *)
Record World : Type := mkWorld {
  db : Device;
  wire : list Msg;
  waiting : list DeviceDbModify;
  calls : list Call;
  logged : list (Level * string)
}.

Inductive result (A : Type) : Type :=
| Ok (a : A)
| Raise (e : exn).
Arguments Ok {A} a.
Arguments Raise {A} e.

(** Statements run on the world and either return or raise; what was
    done before an exception stays done. *)
Definition M (A : Type) : Type := World → result A * World.

#[global] Instance M_ret : MRet M := λ A a w, (Ok a, w).

#[global] Instance M_bind : MBind M := λ A B f m w,
  match m w with
  | (Ok a, w') => f a w'
  | (Raise e, w') => (Raise e, w')
  end.

Definition raise {A : Type} (e : exn) : M A := λ w, (Raise e, w).

Definition get_self : M Device := λ w, (Ok (db w), w).

Definition put_self (d : Device) : M unit := λ w,
  (Ok tt, mkWorld d (wire w) (waiting w) (calls w) (logged w)).

Definition LOG (lvl : Level) (fmt : string) : M unit := λ w,
  (Ok tt, mkWorld (db w) (wire w) (waiting w) (calls w)
            (logged w ++ [(lvl, fmt)])).

(** [protocol.send(msg, msg_handler)] *)
Definition send (msg : Msg) (msg_handler : DeviceDbModify) : M unit := λ w,
  (Ok tt, mkWorld (db w) (wire w ++ [msg]) (waiting w ++ [msg_handler])
            (calls w) (logged w)).

(** [if on_done: on_done(success, msg, entry)] *)
Definition call (on_done : option Callback) (success : bool) (msg : Message)
    (entry : option DeviceEntry.t) : M unit := λ w,
  match on_done with
  | Some f =>
      (Ok tt, mkWorld (db w) (wire w) (waiting w)
                (calls w ++ [mkCall f success msg entry]) (logged w))
  | None => (Ok tt, w)
  end.

(** [bytes(3)] *)
Definition bytes3 : list byte := [x00; x00; x00].

(** ** The add and delete protocol *)

(** [data if data else bytes(3)] *)
Definition data_or_zero (d : option (list byte)) : list byte :=
  match d with Some (b :: d') => b :: d' | _ => bytes3 end.

Definition _add_using_unused (a : Address) (g : Z) (ctrl : bool)
    (d : list byte) (on_done : DoneCb) : M unit :=
  self ← get_self;
  match py_max (PyDict.keys (unused self)) with
  | None => raise ValueError
  | Some k =>
      match PyDict.get (unused self) k with
      | None => raise KeyError
      | Some entry =>
          (* entry = self.unused.pop(max(self.unused.keys())) *)
          put_self (set_unused self (PyDict.remove (unused self) k));;
          LOG INFO "Device %s using unused entry at mem %#06x";;
          let entry := DeviceEntry.update_from entry a g ctrl d in
          let msg := mkMsg (addr self) 0x2f 0x00 entry in
          let msg_handler := mkHandler entry on_done [] in
          send msg msg_handler
      end
  end.

Definition _add_using_new (a : Address) (g : Z) (ctrl : bool)
    (d : list byte) (on_done : DoneCb) : M unit :=
  self ← get_self;
  match py_min (elements (_mem_locs self)) with
  | None => raise ValueError
  | Some lowest =>
      match find_mem_loc self lowest with
      | None => LOG ERROR "MEM_LOCS error: %s"
      | Some last_entry =>
          let mem_loc := DeviceEntry.mem_loc last_entry - 0x08 in
          LOG INFO "Device %s appending new record at mem %#06x";;
          let db_flags := mkDbFlags true ctrl true in
          let entry := DeviceEntry.mk a g mem_loc db_flags d in
          let msg := mkMsg (addr self) 0x2f 0x00 entry in
          let msg_handler := mkHandler entry on_done [] in
          let new_last := DeviceEntry.set_is_last_rec last_entry false in
          let next_msg := mkMsg (addr self) 0x2f 0x00 new_last in
          let msg_handler := add_update msg_handler next_msg new_last in
          send msg msg_handler
      end
  end.

Definition _add_on_device (a : Address) (g : Z) (ctrl : bool)
    (d : option (list byte)) (on_done : option Callback) : M unit :=
  let d := data_or_zero d in
  self ← get_self;
  match find self a g ctrl with
  | Some entry =>
      LOG WARNING "Device %s add db already exists for %s grp %s %s";;
      call on_done true "Entry already exists" (Some entry)
  | None =>
      LOG INFO "Device %s adding db: %s grp %s %s %s";;
      (if (0 <? __len__ self)%nat then mret tt else raise AssertionError);;
      (match unused self with
       | _ :: _ => _add_using_unused a g ctrl d (add_done_cb on_done)
       | [] => _add_using_new a g ctrl d (add_done_cb on_done)
       end);;
      self ← get_self;
      match _pending self with
      | [] => put_self (set_pending self [PendingTrue])
      | _ :: _ => mret tt
      end
  end.

Definition _delete_on_device (entry : DeviceEntry.t)
    (on_done : option Callback) : M unit :=
  self ← get_self;
  let new_entry := DeviceEntry.set_in_use entry false in
  let msg := mkMsg (addr self) 0x2f 0x00 new_entry in
  let msg_handler := mkHandler new_entry (delete_done_cb on_done) [] in
  send msg msg_handler;;
  match _pending self with
  | [] => put_self (set_pending self [PendingTrue])
  | _ :: _ => mret tt
  end.

(** [self._pending[0]()]: a deferred call runs; the dummy [True] is not
    callable. *)
Definition invoke (p : Pending) : M unit :=
  match p with
  | PendingTrue => raise TypeError
  | PendingAdd a g ctrl d on_done => _add_on_device a g ctrl d on_done
  | PendingDelete entry on_done => _delete_on_device entry on_done
  end.

Definition done_cb (cb : DoneCb) (success : bool) (msg : Message)
    (entry : option DeviceEntry.t) : M unit :=
  (match cb with
   | add_done_cb _ => LOG DEBUG "add_on_device done_cb %s"
   | delete_done_cb _ => mret tt
   end);;
  self ← get_self;
  match _pending self with
  | [] => raise IndexError
  | _ :: rest =>
      put_self (set_pending self rest);;
      match rest with
      | p :: _ =>
          (match cb with
           | add_done_cb _ => LOG DEBUG "add_on_device calling next"
           | delete_done_cb _ => mret tt
           end);;
          invoke p
      | [] =>
          call (captured cb) success msg entry
      end
  end.

Definition add_on_device (a : Address) (g : Z) (ctrl : bool)
    (d : option (list byte)) (on_done : option Callback) : M unit :=
  self ← get_self;
  match _pending self with
  | [] => _add_on_device a g ctrl d on_done
  | _ :: _ =>
      LOG INFO "Device %s busy - waiting to add to db";;
      put_self (set_pending self
                  (_pending self ++ [PendingAdd a g ctrl d on_done]))
  end.

Definition delete_on_device (entry : DeviceEntry.t)
    (on_done : option Callback) : M unit :=
  self ← get_self;
  match _pending self with
  | [] => _delete_on_device entry on_done
  | _ :: _ =>
      LOG INFO "Device %s busy - waiting to delete to db";;
      put_self (set_pending self
                  (_pending self ++ [PendingDelete entry on_done]))
  end.

(** Modelled from the spec: handler.DeviceDbModify is not under src/.
    "Only on confirmed acknowledgment does the Record Store get mutated
    and persisted"; a second chained write added by [add_update] is "sent
    automatically once the first is acknowledged"; "failure of either
    step surfaces to onDone with success=false and does not touch local
    state".  The spec gives the completion as [onDone(success, message,
    entry?)] and no wording for the message: it is [HandlerText]. *)
Definition msg_received (h : DeviceDbModify) (ack : bool) : M unit :=
  if ack then
    self ← get_self;
    put_self (add_entry self (h_entry h));;
    match h_next h with
    | (msg, entry) :: rest => send msg (mkHandler entry (h_on_done h) rest)
    | [] => done_cb (h_on_done h) true (HandlerText true) (Some (h_entry h))
    end
  else
    done_cb (h_on_done h) false (HandlerText false) None.

(** ** The public operations as events of one database *)

Inductive Event : Type :=
| AddOnDevice (addr : Address) (group : Z) (is_controller : bool)
    (data : option (list byte)) (on_done : option Callback)
| DeleteOnDevice (entry : DeviceEntry.t) (on_done : option Callback)
| Reply (i : nat) (ack : bool)
| AddEntry (entry : DeviceEntry.t)
| SetDelta (delta : option Z)
| SetPath (path : option string)
| Clear.

(** [Reply i ack]: the transport reports the outcome of the exchange of
    the [i]-th waiting handler, which stops waiting and is run. *)
Definition step (ev : Event) : M unit :=
  match ev with
  | AddOnDevice a g ctrl d on_done => add_on_device a g ctrl d on_done
  | DeleteOnDevice entry on_done => delete_on_device entry on_done
  | Reply i ack =>
      λ w,
        match waiting w !! i with
        | Some h =>
            msg_received h ack
              (mkWorld (db w) (wire w) (delete i (waiting w)) (calls w)
                 (logged w))
        | None => (Ok tt, w)
        end
  | AddEntry entry => self ← get_self; put_self (add_entry self entry)
  | SetDelta d => self ← get_self; put_self (set_delta self d)
  | SetPath p => self ← get_self; put_self (set_path self p)
  | Clear => self ← get_self; put_self (clear self)
  end.

Definition exec (w : World) (ev : Event) : World := snd (step ev w).

Definition run (w : World) (evs : list Event) : World := fold_left exec evs w.

(** A freshly constructed database with nothing on the wire. *)
Definition boot (a : Address) (path : option string) : World :=
  mkWorld (__init__ a path) [] [] [] [].

(** * Vocabulary of the properties *)

(** ** Running a statement *)

Definition outcome {A : Type} (m : M A) (w : World) : result A := fst (m w).
Definition after {A : Type} (m : M A) (w : World) : World := snd (m w).

(** The deferred call [add_on_device] / [delete_on_device] appends to
    [_pending] for a request. *)
Definition continuation (ev : Event) : option Pending :=
  match ev with
  | AddOnDevice a g ctrl d on_done => Some (PendingAdd a g ctrl d on_done)
  | DeleteOnDevice entry on_done => Some (PendingDelete entry on_done)
  | _ => None
  end.

(** The entries of [entries] that carry the last-record flag. *)
Definition last_records (d : Device) : list DeviceEntry.t :=
  List.filter (λ e, is_last_rec (DeviceEntry.db_flags e))
    (PyDict.values (entries d)).

(** ** Invariants *)

(** What the two dicts look like in every database built by the
    operations: keys are unique, every record sits under its own slot
    address in the dict its in-use flag names, and [_mem_locs] is a
    superset of both key sets. *)
Record store_ok (d : Device) : Prop := mk_store_ok {
  entries_wf : PyDict.wf (entries d);
  unused_wf : PyDict.wf (unused d);
  entries_keyed : ∀ k e, (k, e) ∈ entries d →
    DeviceEntry.mem_loc e = k ∧ in_use (DeviceEntry.db_flags e) = true;
  unused_keyed : ∀ k e, (k, e) ∈ unused d →
    DeviceEntry.mem_loc e = k ∧ in_use (DeviceEntry.db_flags e) = false;
  mem_locs_superset : ∀ k,
    k ∈ PyDict.keys (entries d) ∨ k ∈ PyDict.keys (unused d) →
    k ∈ _mem_locs d
}.

(** At most one exchange awaits a reply, and while one does [_pending]
    is not empty. *)
Definition queue_ok (w : World) : Prop :=
  (length (waiting w) ≤ 1)%nat ∧ (waiting w ≠ [] → _pending (db w) ≠ []).

Definition inv (w : World) : Prop := store_ok (db w) ∧ queue_ok w.

(** What every group list does satisfy: its members are controller
    records of that group that were inserted in use, under a slot that is
    a key of [entries]. *)
Definition groups_ok (d : Device) : Prop :=
  ∀ g e, e ∈ find_group d g →
    is_controller (DeviceEntry.db_flags e) = true ∧
    in_use (DeviceEntry.db_flags e) = true ∧
    DeviceEntry.group e = g ∧
    DeviceEntry.mem_loc e ∈ PyDict.keys (entries d).

(** [started w w']: from [w] to [w'] the record store changed at most by
    the highest slot leaving [unused], and either nothing was sent or
    exactly one write was sent, its handler now waits and [_pending] is
    not empty. *)
Definition started (w w' : World) : Prop :=
  entries (db w') = entries (db w) ∧
  groups (db w') = groups (db w) ∧
  _mem_locs (db w') = _mem_locs (db w) ∧
  delta (db w') = delta (db w) ∧
  (unused (db w') = unused (db w) ∨
   ∃ k, py_max (PyDict.keys (unused (db w))) = Some k ∧
        unused (db w') = PyDict.remove (unused (db w)) k) ∧
  ((wire w' = wire w ∧ waiting w' = waiting w) ∨
   (∃ m h, wire w' = wire w ++ [m] ∧ waiting w' = waiting w ++ [h] ∧
           _pending (db w') ≠ [])) ∧
  (_pending (db w) ≠ [] → _pending (db w') = _pending (db w)).

(** [store_kept w w']: the record store is the same, but that the
    highest slot of [unused] may have been taken out of it. *)
Definition store_kept (w w' : World) : Prop :=
  entries (db w') = entries (db w) ∧
  groups (db w') = groups (db w) ∧
  _mem_locs (db w') = _mem_locs (db w) ∧
  delta (db w') = delta (db w) ∧
  (unused (db w') = unused (db w) ∨
   ∃ k, py_max (PyDict.keys (unused (db w))) = Some k ∧
        unused (db w') = PyDict.remove (unused (db w)) k).

(** The events that may change [entries], [groups] or [_mem_locs]: an
    acknowledgment, a local insert, a clear. *)
Definition commits (ev : Event) : bool :=
  match ev with
  | Reply _ true | AddEntry _ | Clear => true
  | _ => false
  end.

(** ** Records and databases used as concrete inputs *)

Definition P1 : Address := 0x010101.
Definition P2 : Address := 0x020202.
Definition P3 : Address := 0x030303.

(** The record a device starts with: in use, controller, last record, at
    slot 0x0FF8. *)
Definition first_rec : DeviceEntry.t :=
  DeviceEntry.mk P1 1 0x0ff8 (mkDbFlags true true true) bytes3.

(** [first_rec] as the delete protocol inserts it once the device has
    acknowledged: a copy with the in-use flag cleared. *)
Definition first_rec_freed : DeviceEntry.t :=
  DeviceEntry.set_in_use first_rec false.

(** Another controller record for slot 0x0FF8. *)
Definition second_rec : DeviceEntry.t :=
  DeviceEntry.mk P2 2 0x0ff8 (mkDbFlags true true true) bytes3.

(** A freed slot at 0x0FF0. *)
Definition free_rec : DeviceEntry.t :=
  DeviceEntry.mk P3 3 0x0ff0 (mkDbFlags false false false) bytes3.

(** A database holding only [first_rec]. *)
Definition one_rec : World := run (boot 0x0a0b0c None) [AddEntry first_rec].

(** A database holding [first_rec] and the freed slot [free_rec]. *)
Definition one_free : World :=
  run (boot 0x0a0b0c None) [AddEntry first_rec; AddEntry free_rec].

(** A database with no entry in use and one freed slot. *)
Definition only_free : World := run (boot 0x0a0b0c None) [AddEntry free_rec].

(** [one_free] after an add that reused the freed slot and whose write
    the device refused: slot 0x0FF0 is in [_mem_locs] and in neither
    dict, and nothing is pending. *)
Definition slot_lost : World :=
  run one_free [AddOnDevice P2 2 false None (Some 1%nat); Reply 0 false].

(** [one_rec] after a growth whose first write was acknowledged and whose
    followup was refused: [first_rec] was never rewritten and still
    carries the last-record flag, as does the record below it. *)
Definition followup_refused : World :=
  run one_rec [AddOnDevice P2 2 true None None; Reply 0 true; Reply 0 false].

(** Two adds issued back to back on a database holding [first_rec]. *)
Definition first_add : Event :=
  AddOnDevice P2 2 true (Some [x01; x02; x03]) (Some 1%nat).
Definition second_add : Event := AddOnDevice P3 3 false None (Some 2%nat).

(** A database read from a device whose record at slot 0x0FF8 was freed
    and whose record at 0x0FF0 is a controller entry for the same peer
    and group. *)
Definition freed_ctrl : DeviceEntry.t :=
  DeviceEntry.mk P1 1 0x0ff8 (mkDbFlags false true false) bytes3.
Definition ctrl_below : DeviceEntry.t :=
  DeviceEntry.mk P1 1 0x0ff0 (mkDbFlags true true true) bytes3.
Definition relinked : Device :=
  fold_left add_entry [freed_ctrl; ctrl_below] (__init__ 0x0a0b0c None).

(** [one_rec] while the first add awaits the reply to its write. *)
Definition one_rec_busy : World := exec one_rec first_add.

(** A database with no record at all on which a delete awaits its
    reply. *)
Definition empty_busy : World :=
  run (boot 0x0a0b0c None) [DeleteOnDevice first_rec None].

(** ** Vocabulary of the further properties *)

(** A document whose used entries are in use, whose unused entries are
    not, and in which neither list names a slot twice. *)
Definition doc_ok (doc : Document) : Prop :=
  NoDup (map DeviceEntry.mem_loc (doc_used doc)) ∧
  Forall (λ e, in_use (DeviceEntry.db_flags e) = true) (doc_used doc) ∧
  NoDup (map DeviceEntry.mem_loc (doc_unused doc)) ∧
  Forall (λ e, in_use (DeviceEntry.db_flags e) = false) (doc_unused doc).

(** The dummy [True] stands at the head of [_pending] or nowhere. *)
Definition marker_first (w : World) : Prop :=
  Forall (λ p, p ≠ PendingTrue) (tail (_pending (db w))).

(** The calls a deferred call makes as it is started: an add for a link
    that is already there answers its own [on_done] at once, every other
    start calls nobody. *)
Definition answered (d : Device) (p : Pending) : list Call :=
  match p with
  | PendingAdd a g ctrl _ (Some f) =>
      match find d a g ctrl with
      | Some e => [mkCall f true "Entry already exists" (Some e)]
      | None => []
      end
  | _ => []
  end.

(** A record matches the three keys of [find]. *)
Definition is_link (a : Address) (g : Z) (ctrl : bool) (e : DeviceEntry.t)
    : Prop :=
  DeviceEntry.addr e = a ∧ DeviceEntry.group e = g ∧
  is_controller (DeviceEntry.db_flags e) = ctrl.

(** A write of the database of device [a0]: the extended direct command
    0x2F 0x00 addressed to the device itself. *)
Definition msg_ok (a0 : Address) (m : Msg) : Prop :=
  to_addr m = a0 ∧ cmd1 m = 0x2f ∧ cmd2 m = 0x00.

(** The followups of a handler are writes to [a0], each kept with the
    record its message carries. *)
Definition next_ok (a0 : Address) (h : DeviceDbModify) : Prop :=
  Forall (λ p, msg_ok a0 (fst p) ∧ ext_data (fst p) = snd p) (h_next h).

(** What is on the wire of the database of device [a0], and what the
    handlers hold: every message is a write to [a0], and the record a
    handler will commit is the record of the last write sent. *)
Definition wire_ok (a0 : Address) (w : World) : Prop :=
  addr (db w) = a0 ∧
  Forall (msg_ok a0) (wire w) ∧
  Forall (next_ok a0) (waiting w) ∧
  (∀ h, last (waiting w) = Some h →
     ∃ m, last (wire w) = Some m ∧ ext_data m = h_entry h).

(** * Properties *)

(** ** Facts about the dict model *)

Module PyDictFacts.
Section Facts.
Context {V : Type}.
Implicit Types (d : PyDict.t V) (k : Z) (v : V).

Lemma get_set_eq d k v : PyDict.get (PyDict.set d k v) k = Some v.
Proof.
  induction d as [|[k' v'] d IH]; simpl.
  - by rewrite Z.eqb_refl.
  - destruct (k' =? k) eqn:E; simpl.
    + by rewrite Z.eqb_refl.
    + by rewrite E.
Qed.

Lemma get_set_ne d k k' v :
  k ≠ k' → PyDict.get (PyDict.set d k v) k' = PyDict.get d k'.
Proof.
  intros Hne. induction d as [|[k0 v0] d IH]; simpl.
  - destruct (k =? k') eqn:E; [apply Z.eqb_eq in E; done | done].
  - destruct (k0 =? k) eqn:E; simpl.
    + apply Z.eqb_eq in E; subst k0.
      destruct (k =? k') eqn:E'; [apply Z.eqb_eq in E'; done | done].
    + by rewrite IH.
Qed.

Lemma set_fresh d k v :
  k ∉ PyDict.keys d → PyDict.set d k v = d ++ [(k, v)].
Proof.
  induction d as [|[k' v'] d IH]; simpl; [done|].
  intros Hk. apply not_elem_of_cons in Hk as [Hne Hk].
  destruct (k' =? k) eqn:E; [apply Z.eqb_eq in E; congruence|].
  by rewrite IH.
Qed.

Lemma elem_of_set d k v k' v' :
  (k', v') ∈ PyDict.set d k v → (k' = k ∧ v' = v) ∨ (k', v') ∈ d.
Proof.
  induction d as [|[k0 v0] d IH]; simpl.
  - intros H%list_elem_of_singleton. injection H as -> ->. by left.
  - destruct (k0 =? k) eqn:E.
    + intros [H|H]%elem_of_cons.
      * injection H as -> ->. by left.
      * right. by apply elem_of_cons; right.
    + intros [H|H]%elem_of_cons.
      * right. rewrite H. by apply elem_of_cons; left.
      * destruct (IH H) as [?|?]; [by left|].
        right. by apply elem_of_cons; right.
Qed.

Lemma keys_set d k v k' :
  k' ∈ PyDict.keys (PyDict.set d k v) ↔ k' = k ∨ k' ∈ PyDict.keys d.
Proof.
  induction d as [|[k0 v0] d IH]; simpl.
  - rewrite list_elem_of_singleton. split; [by left|].
    intros [?|H]; [done | by apply elem_of_nil in H].
  - destruct (k0 =? k) eqn:E; simpl.
    + apply Z.eqb_eq in E; subst k0. rewrite !elem_of_cons. tauto.
    + rewrite !elem_of_cons, IH. tauto.
Qed.

Lemma wf_set d k v : PyDict.wf d → PyDict.wf (PyDict.set d k v).
Proof.
  unfold PyDict.wf. induction d as [|[k0 v0] d IH]; simpl.
  - intros _. apply NoDup_singleton.
  - intros [Hk0 Hd]%NoDup_cons. destruct (k0 =? k) eqn:E; simpl.
    + apply Z.eqb_eq in E; subst k0. by apply NoDup_cons.
    + apply NoDup_cons. split; [|by apply IH].
      intros [->|H]%keys_set; [|done].
      by rewrite Z.eqb_refl in E.
Qed.

Lemma elem_of_remove d k k' v' :
  (k', v') ∈ PyDict.remove d k → (k', v') ∈ d.
Proof.
  induction d as [|[k0 v0] d IH]; simpl; [done|].
  destruct (k0 =? k).
  - intros H. by apply elem_of_cons; right.
  - intros [H|H]%elem_of_cons; apply elem_of_cons; [by left | right; auto].
Qed.

Lemma keys_remove d k k' :
  k' ∈ PyDict.keys (PyDict.remove d k) → k' ∈ PyDict.keys d.
Proof.
  unfold PyDict.keys. intros ([k0 v0] & -> & H)%list_elem_of_fmap.
  apply list_elem_of_fmap. exists (k0, v0). split; [done|].
  by eapply elem_of_remove.
Qed.

Lemma wf_remove d k : PyDict.wf d → PyDict.wf (PyDict.remove d k).
Proof.
  unfold PyDict.wf. induction d as [|[k0 v0] d IH]; simpl; [done|].
  intros [Hk0 Hd]%NoDup_cons. destruct (k0 =? k); [done|].
  simpl. apply NoDup_cons. split; [|by apply IH].
  intros H. by apply Hk0, (keys_remove d k).
Qed.

Lemma get_Some_elem_of d k v : PyDict.get d k = Some v → (k, v) ∈ d.
Proof.
  induction d as [|[k0 v0] d IH]; simpl; [done|].
  destruct (k0 =? k) eqn:E.
  - apply Z.eqb_eq in E; subst k0. intros [= ->]. by apply elem_of_cons; left.
  - intros H. apply elem_of_cons; right. auto.
Qed.

Lemma get_None_keys d k : PyDict.get d k = None ↔ k ∉ PyDict.keys d.
Proof.
  induction d as [|[k0 v0] d IH]; simpl.
  - split; [intros _; apply not_elem_of_nil | done].
  - destruct (k0 =? k) eqn:E.
    + apply Z.eqb_eq in E; subst k0. split; [done|].
      intros H. exfalso. apply H. by apply elem_of_cons; left.
    + rewrite IH, not_elem_of_cons. apply Z.eqb_neq in E. split.
      * intros H; split; [congruence | done].
      * by intros [_ H].
Qed.

Lemma elem_of_keys d k v : (k, v) ∈ d → k ∈ PyDict.keys d.
Proof.
  intros H. unfold PyDict.keys. apply list_elem_of_fmap. by exists (k, v).
Qed.

Lemma elem_of_values d v : v ∈ PyDict.values d ↔ ∃ k, (k, v) ∈ d.
Proof.
  unfold PyDict.values. rewrite list_elem_of_fmap. split.
  - intros ([k v0] & -> & H). by exists k.
  - intros [k H]. by exists (k, v).
Qed.
End Facts.
End PyDictFacts.

(** ** Facts about [max] and [min] *)

Lemma fold_max_spec (l : list Z) (a : Z) :
  fold_left Z.max l a ∈ a :: l ∧ ∀ x, x ∈ a :: l → x ≤ fold_left Z.max l a.
Proof.
  revert a. induction l as [|b l IH]; intros a; simpl.
  - split; [by apply elem_of_cons; left|].
    intros x [->|H]%elem_of_cons; [lia | by apply elem_of_nil in H].
  - destruct (IH (Z.max a b)) as [Hin Hle]. split.
    + apply elem_of_cons in Hin as [Hin|Hin].
      * rewrite Hin. destruct (Z.max_spec a b) as [[_ ->]|[_ ->]].
        -- apply elem_of_cons; right. by apply elem_of_cons; left.
        -- by apply elem_of_cons; left.
      * apply elem_of_cons; right. by apply elem_of_cons; right.
    + intros x Hx.
      assert (Z.max a b ≤ fold_left Z.max l (Z.max a b))
        by (apply Hle, elem_of_cons; by left).
      apply elem_of_cons in Hx as [->|Hx]; [lia|].
      apply elem_of_cons in Hx as [->|Hx]; [lia|].
      apply Hle, elem_of_cons. by right.
Qed.

Lemma fold_min_spec (l : list Z) (a : Z) :
  fold_left Z.min l a ∈ a :: l ∧ ∀ x, x ∈ a :: l → fold_left Z.min l a ≤ x.
Proof.
  revert a. induction l as [|b l IH]; intros a; simpl.
  - split; [by apply elem_of_cons; left|].
    intros x [->|H]%elem_of_cons; [lia | by apply elem_of_nil in H].
  - destruct (IH (Z.min a b)) as [Hin Hle]. split.
    + apply elem_of_cons in Hin as [Hin|Hin].
      * rewrite Hin. destruct (Z.min_spec a b) as [[_ ->]|[_ ->]].
        -- by apply elem_of_cons; left.
        -- apply elem_of_cons; right. by apply elem_of_cons; left.
      * apply elem_of_cons; right. by apply elem_of_cons; right.
    + intros x Hx.
      assert (fold_left Z.min l (Z.min a b) ≤ Z.min a b)
        by (apply Hle, elem_of_cons; by left).
      apply elem_of_cons in Hx as [->|Hx]; [lia|].
      apply elem_of_cons in Hx as [->|Hx]; [lia|].
      apply Hle, elem_of_cons. by right.
Qed.

Lemma py_max_spec (l : list Z) (m : Z) :
  py_max l = Some m → m ∈ l ∧ ∀ x, x ∈ l → x ≤ m.
Proof.
  destruct l as [|a l]; simpl; [done|]. intros [= <-]. apply fold_max_spec.
Qed.

Lemma py_min_spec (l : list Z) (m : Z) :
  py_min l = Some m → m ∈ l ∧ ∀ x, x ∈ l → m ≤ x.
Proof.
  destruct l as [|a l]; simpl; [done|]. intros [= <-]. apply fold_min_spec.
Qed.

Lemma py_max_is_Some (l : list Z) : l ≠ [] → is_Some (py_max l).
Proof. destruct l; [done | by eexists]. Qed.

(** The minimum is determined by the elements, whatever their order. *)
Lemma py_min_unique (l : list Z) (m : Z) :
  m ∈ l → (∀ x, x ∈ l → m ≤ x) → py_min l = Some m.
Proof.
  intros Hin Hle. destruct (py_min l) as [m'|] eqn:E.
  - apply py_min_spec in E as [Hin' Hle'].
    f_equal. specialize (Hle _ Hin'). specialize (Hle' _ Hin). lia.
  - destruct l; [by apply elem_of_nil in Hin | done].
Qed.

(** ** [add_entry] and the shape of the record store *)

Lemma add_entry_entries (d : Device) (e : DeviceEntry.t) :
  entries (add_entry d e) =
  if in_use (DeviceEntry.db_flags e)
  then PyDict.set (entries d) (DeviceEntry.mem_loc e) e else entries d.
Proof.
  unfold add_entry.
  destruct (in_use _), (is_controller _); simpl; try done.
  by destruct (groups d !! _).
Qed.

Lemma add_entry_unused (d : Device) (e : DeviceEntry.t) :
  unused (add_entry d e) =
  if in_use (DeviceEntry.db_flags e)
  then unused d else PyDict.set (unused d) (DeviceEntry.mem_loc e) e.
Proof.
  unfold add_entry.
  destruct (in_use _), (is_controller _); simpl; try done.
  by destruct (groups d !! _).
Qed.

Lemma add_entry_mem_locs (d : Device) (e : DeviceEntry.t) :
  _mem_locs (add_entry d e) = {[DeviceEntry.mem_loc e]} ∪ _mem_locs d.
Proof.
  unfold add_entry.
  destruct (in_use _), (is_controller _); simpl; try done.
  by destruct (groups d !! _).
Qed.

Lemma add_entry_other (d : Device) (e : DeviceEntry.t) :
  addr (add_entry d e) = addr d ∧ save_path (add_entry d e) = save_path d ∧
  delta (add_entry d e) = delta d ∧ _pending (add_entry d e) = _pending d.
Proof.
  unfold add_entry.
  destruct (in_use _), (is_controller _); simpl; try done.
  by destruct (groups d !! _).
Qed.

Lemma store_ok_init (a : Address) (p : option string) : store_ok (__init__ a p).
Proof.
  split; simpl; try apply NoDup_nil_2.
  - intros k e H. by apply elem_of_nil in H.
  - intros k e H. by apply elem_of_nil in H.
  - intros k [H|H]; by apply elem_of_nil in H.
Qed.

Lemma store_ok_add_entry (d : Device) (e : DeviceEntry.t) :
  store_ok d → store_ok (add_entry d e).
Proof.
  intros [Hwe Hwu Hke Hku Hsup].
  split; rewrite ?add_entry_entries, ?add_entry_unused.
  - destruct (in_use _); [by apply PyDictFacts.wf_set | done].
  - destruct (in_use _); [done | by apply PyDictFacts.wf_set].
  - intros k e'. destruct (in_use (DeviceEntry.db_flags e)) eqn:E; [|by auto].
    intros [[-> ->]|H]%PyDictFacts.elem_of_set; auto.
  - intros k e'. destruct (in_use (DeviceEntry.db_flags e)) eqn:E; [by auto|].
    intros [[-> ->]|H]%PyDictFacts.elem_of_set; auto.
  - intros k. rewrite add_entry_mem_locs, elem_of_union, elem_of_singleton.
    destruct (in_use (DeviceEntry.db_flags e)).
    + rewrite PyDictFacts.keys_set. intros [[->|H]|H]; auto.
    + rewrite PyDictFacts.keys_set. intros [H|[->|H]]; auto.
Qed.

(** ** The protocol, case by case *)

#[global] Arguments py_max : simpl never.
#[global] Arguments py_min : simpl never.
#[global] Arguments PyDict.get : simpl never.
#[global] Arguments PyDict.remove : simpl never.
#[global] Arguments PyDict.keys : simpl never.

Ltac unfold_m :=
  unfold outcome, after, exec, step, add_on_device, delete_on_device,
    msg_received, done_cb, invoke, _add_on_device, _delete_on_device,
    _add_using_unused, _add_using_new, call, send, LOG, put_self, get_self,
    raise, mbind, M_bind, mret, M_ret, __len__, data_or_zero in *.

Lemma match_nonempty {A B : Type} (l : list A) (x y : B) :
  l ≠ [] → match l with [] => x | _ :: _ => y end = y.
Proof. by destruct l. Qed.

(** *** The ways [_add_on_device] can go *)

Lemma _add_on_device_exists w a g ctrl d on_done entry :
  find (db w) a g ctrl = Some entry →
  let w' := after (_add_on_device a g ctrl d on_done) w in
  outcome (_add_on_device a g ctrl d on_done) w = Ok tt ∧
  db w' = db w ∧ wire w' = wire w ∧ waiting w' = waiting w ∧
  calls w' =
    calls w ++ match on_done with
               | Some f => [mkCall f true "Entry already exists" (Some entry)]
               | None => []
               end.
Proof.
  intros Hfind. unfold_m. simpl. rewrite Hfind. simpl.
  destruct on_done; simpl; by rewrite ?app_nil_r.
Qed.

Lemma _add_on_device_empty w a g ctrl d on_done :
  entries (db w) = [] →
  let w' := after (_add_on_device a g ctrl d on_done) w in
  outcome (_add_on_device a g ctrl d on_done) w = Raise AssertionError ∧
  db w' = db w ∧ wire w' = wire w ∧ waiting w' = waiting w ∧
  calls w' = calls w.
Proof.
  intros Hent. unfold_m. simpl. unfold find. rewrite Hent. by simpl.
Qed.

Lemma _add_on_device_reuse w a g ctrl d on_done k u :
  find (db w) a g ctrl = None →
  entries (db w) ≠ [] →
  py_max (PyDict.keys (unused (db w))) = Some k →
  PyDict.get (unused (db w)) k = Some u →
  let entry := DeviceEntry.update_from u a g ctrl (data_or_zero d) in
  let w' := after (_add_on_device a g ctrl d on_done) w in
  outcome (_add_on_device a g ctrl d on_done) w = Ok tt ∧
  db w' =
    set_pending (set_unused (db w) (PyDict.remove (unused (db w)) k))
      (match _pending (db w) with [] => [PendingTrue] | p => p end) ∧
  wire w' = wire w ++ [mkMsg (addr (db w)) 0x2f 0x00 entry] ∧
  waiting w' = waiting w ++ [mkHandler entry (add_done_cb on_done) []] ∧
  calls w' = calls w.
Proof.
  intros Hfind Hent Hmax Hget. unfold_m. simpl. rewrite Hfind. simpl.
  destruct (entries (db w)) as [|x l] eqn:E; [done|]. simpl.
  rewrite (match_nonempty (unused (db w)))
    by (intros E'; by rewrite E' in Hmax).
  simpl. rewrite Hmax. simpl. rewrite Hget. simpl.
  destruct (_pending (db w)) eqn:Ep; simpl; unfold set_unused, set_pending;
    simpl; rewrite ?Ep; done.
Qed.

Lemma _add_on_device_grow w a g ctrl d on_done lowest last_entry :
  find (db w) a g ctrl = None →
  entries (db w) ≠ [] →
  unused (db w) = [] →
  py_min (elements (_mem_locs (db w))) = Some lowest →
  find_mem_loc (db w) lowest = Some last_entry →
  let entry :=
    DeviceEntry.mk a g (DeviceEntry.mem_loc last_entry - 0x08)
      (mkDbFlags true ctrl true) (data_or_zero d) in
  let new_last := DeviceEntry.set_is_last_rec last_entry false in
  let w' := after (_add_on_device a g ctrl d on_done) w in
  outcome (_add_on_device a g ctrl d on_done) w = Ok tt ∧
  db w' =
    set_pending (db w)
      (match _pending (db w) with [] => [PendingTrue] | p => p end) ∧
  wire w' = wire w ++ [mkMsg (addr (db w)) 0x2f 0x00 entry] ∧
  waiting w' =
    waiting w ++
      [mkHandler entry (add_done_cb on_done)
         [(mkMsg (addr (db w)) 0x2f 0x00 new_last, new_last)]] ∧
  calls w' = calls w.
Proof.
  intros Hfind Hent Hunused Hmin Hlast. unfold_m. simpl. rewrite Hfind. simpl.
  destruct (entries (db w)) as [|x l] eqn:E; [done|]. simpl.
  rewrite Hunused. simpl. rewrite Hmin. simpl. rewrite Hlast. simpl.
  destruct (_pending (db w)) eqn:Ep; simpl; unfold set_pending; simpl;
    rewrite ?Ep; repeat split; try reflexivity;
    destruct (db w); simpl in *; by subst.
Qed.

Lemma _add_on_device_abort w a g ctrl d on_done lowest :
  find (db w) a g ctrl = None →
  entries (db w) ≠ [] →
  unused (db w) = [] →
  py_min (elements (_mem_locs (db w))) = Some lowest →
  find_mem_loc (db w) lowest = None →
  let w' := after (_add_on_device a g ctrl d on_done) w in
  outcome (_add_on_device a g ctrl d on_done) w = Ok tt ∧
  db w' =
    set_pending (db w)
      (match _pending (db w) with [] => [PendingTrue] | p => p end) ∧
  wire w' = wire w ∧ waiting w' = waiting w ∧ calls w' = calls w ∧
  logged w' =
    logged w ++ [(INFO, "Device %s adding db: %s grp %s %s %s"%string);
                 (ERROR, "MEM_LOCS error: %s"%string)].
Proof.
  intros Hfind Hent Hunused Hmin Hlast. unfold_m. simpl. rewrite Hfind. simpl.
  destruct (entries (db w)) as [|x l] eqn:E; [done|]. simpl.
  rewrite Hunused. simpl. rewrite Hmin. simpl. rewrite Hlast. simpl.
  rewrite <- app_assoc. simpl.
  destruct (_pending (db w)) eqn:Ep; simpl; unfold set_pending; simpl;
    rewrite ?Ep; repeat split; try reflexivity;
    destruct (db w); simpl in *; by subst.
Qed.

(** *** What starting a request can change *)

Ltac started_goal :=
  repeat apply conj;
  first
    [ reflexivity
    | left; reflexivity
    | left; split; reflexivity
    | left; done
    | right; eexists; split; reflexivity
    | right; eexists _, _; repeat apply conj; simpl; done
    | intros; simpl in *; congruence
    | done ].

Lemma _add_on_device_started w a g ctrl d on_done :
  started w (after (_add_on_device a g ctrl d on_done) w).
Proof.
  unfold started. unfold_m. simpl.
  destruct (find (db w) a g ctrl); simpl.
  { destruct on_done; simpl; started_goal. }
  destruct (0 <? length (entries (db w)))%nat; simpl; [|started_goal].
  destruct (unused (db w)) eqn:Eu; simpl.
  - destruct (py_min _); simpl; [|started_goal].
    destruct (find_mem_loc _ _); simpl.
    + destruct (_pending (db w)) eqn:Ep; simpl; rewrite ?Ep; started_goal.
    + destruct (_pending (db w)) eqn:Ep; simpl; rewrite ?Ep; started_goal.
  - rewrite <- Eu. destruct (py_max _); simpl; [|started_goal].
    destruct (PyDict.get _ _); simpl; [|started_goal].
    destruct (_pending (db w)) eqn:Ep; simpl; rewrite ?Ep; started_goal.
Qed.

Lemma _delete_on_device_started w entry on_done :
  started w (after (_delete_on_device entry on_done) w).
Proof.
  unfold started. unfold_m. simpl.
  destruct (_pending (db w)) eqn:Ep; simpl; rewrite ?Ep; started_goal.
Qed.

Lemma invoke_started w p : started w (after (invoke p) w).
Proof.
  destruct p; simpl.
  - unfold started, after, raise; simpl. started_goal.
  - apply _add_on_device_started.
  - apply _delete_on_device_started.
Qed.

(** ** Invariants of every run *)

Lemma store_ok_ext (d d' : Device) :
  store_ok d → entries d' = entries d → unused d' = unused d →
  _mem_locs d' = _mem_locs d → store_ok d'.
Proof.
  intros [Hwe Hwu Hke Hku Hsup] He Hu Hm.
  split; rewrite ?He, ?Hu, ?Hm; auto.
Qed.

Lemma store_ok_remove_unused (d d' : Device) (k : Z) :
  store_ok d → entries d' = entries d →
  unused d' = PyDict.remove (unused d) k →
  _mem_locs d' = _mem_locs d → store_ok d'.
Proof.
  intros [Hwe Hwu Hke Hku Hsup] He Hu Hm.
  split; rewrite ?He, ?Hu, ?Hm; auto.
  - by apply PyDictFacts.wf_remove.
  - intros k' e H. eapply Hku, PyDictFacts.elem_of_remove, H.
  - intros k' [H|H]; apply Hsup; [by left|].
    right. by eapply PyDictFacts.keys_remove.
Qed.

Lemma store_ok_started (w w' : World) :
  store_ok (db w) → started w w' → store_ok (db w').
Proof.
  intros Hok (He & _ & Hm & _ & [Hu|(k & _ & Hu)] & _).
  - by eapply store_ok_ext.
  - by eapply store_ok_remove_unused.
Qed.

Lemma queue_ok_started (w w' : World) :
  waiting w = [] → started w w' → queue_ok w'.
Proof.
  intros Hw (_ & _ & _ & _ & _ & [[_ Hwait]|(m & h & _ & Hwait & Hp)] & _);
    unfold queue_ok; rewrite Hwait, Hw; simpl; split; auto; done.
Qed.

Lemma inv_started (w w' : World) :
  store_ok (db w) → waiting w = [] → started w w' → inv w'.
Proof.
  intros. split; [by eapply store_ok_started | by eapply queue_ok_started].
Qed.

Ltac unfold_cb :=
  unfold after, outcome, msg_received, done_cb, call, send, LOG, put_self,
    get_self, raise, mbind, M_bind, mret, M_ret.

Lemma done_cb_inv w cb success msg entry :
  store_ok (db w) → waiting w = [] →
  inv (after (done_cb cb success msg entry) w).
Proof.
  intros Hok Hw.
  unfold after, done_cb, LOG, put_self, get_self, raise, mbind, M_bind, mret,
    M_ret.
  assert (Hidle : ∀ w', db w' = db w → waiting w' = [] → inv w').
  { intros w' Hdb Hw'. split; [by rewrite Hdb|].
    split; rewrite Hw'; simpl; [lia | done]. }
  assert (Hrest : ∀ w' p rest,
    _pending (db w) = p :: rest → db w' = set_pending (db w) rest →
    waiting w' = [] →
    inv (snd (match rest with
              | q :: _ => invoke q w'
              | [] => call (captured cb) success msg entry w'
              end))).
  { intros w' p rest Hp Hdb Hw'.
    assert (store_ok (db w')) by (rewrite Hdb; by eapply store_ok_ext).
    destruct rest as [|q rest].
    - unfold call. destruct (captured cb); simpl;
        (split; [done | split; simpl; rewrite ?Hw'; simpl; [lia | done]]).
    - by apply (inv_started w'), invoke_started. }
  destruct cb; simpl.
  - destruct (_pending (db w)) as [|p rest] eqn:Ep; simpl.
    + by apply Hidle.
    + destruct rest as [|q rest]; simpl.
      * by apply (Hrest _ p []).
      * by apply (Hrest _ p (q :: rest)).
  - destruct (_pending (db w)) as [|p rest] eqn:Ep; simpl.
    + by apply Hidle.
    + destruct rest as [|q rest]; simpl.
      * by apply (Hrest _ p []).
      * by apply (Hrest _ p (q :: rest)).
Qed.

Lemma msg_received_inv w h ack :
  store_ok (db w) → waiting w = [] → _pending (db w) ≠ [] →
  inv (after (msg_received h ack) w).
Proof.
  intros Hok Hw Hp. unfold after, msg_received. destruct ack.
  - unfold mbind, M_bind, get_self, put_self. simpl.
    set (w1 := mkWorld (add_entry (db w) (h_entry h)) (wire w) (waiting w)
                 (calls w) (logged w)).
    assert (store_ok (db w1)) by by apply store_ok_add_entry.
    destruct (h_next h) as [|[msg entry] rest].
    + by apply done_cb_inv.
    + unfold send; simpl. split; [done|]. rewrite Hw. split; simpl; [lia|].
      intros _. by destruct (add_entry_other (db w) (h_entry h)) as (_&_&_&->).
  - by apply done_cb_inv.
Qed.

Lemma inv_boot (a : Address) (p : option string) : inv (boot a p).
Proof.
  split; [apply store_ok_init|]. split; simpl; [lia | done].
Qed.

Lemma inv_exec (w : World) (ev : Event) : inv w → inv (exec w ev).
Proof.
  intros [Hok [Hlen Hbusy]]. unfold exec.
  assert (Hdb : ∀ d, store_ok d → _pending d = _pending (db w) →
            inv (mkWorld d (wire w) (waiting w) (calls w) (logged w))).
  { intros d Hd Hp. split; [done|]. split; simpl; [done | by rewrite Hp]. }
  destruct ev as [a g ctrl d on_done|entry on_done|i ack|entry|dl|p|]; simpl.
  - unfold add_on_device, mbind, M_bind, get_self; simpl.
    destruct (_pending (db w)) as [|p q] eqn:Ep.
    + assert (waiting w = []) as Hw
        by (destruct (waiting w); [done | exfalso; by apply Hbusy]).
      by apply (inv_started w), _add_on_device_started.
    + unfold LOG, put_self; simpl. split.
      * by eapply store_ok_ext.
      * split; simpl; [done|]. intros _. by destruct q.
  - unfold delete_on_device, mbind, M_bind, get_self; simpl.
    destruct (_pending (db w)) as [|p q] eqn:Ep.
    + assert (waiting w = []) as Hw
        by (destruct (waiting w); [done | exfalso; by apply Hbusy]).
      by apply (inv_started w), _delete_on_device_started.
    + unfold LOG, put_self; simpl. split.
      * by eapply store_ok_ext.
      * split; simpl; [done|]. intros _. by destruct q.
  - destruct (waiting w !! i) as [h|] eqn:Ei; [|by split].
    destruct (waiting w) as [|h0 [|h1 l]] eqn:Ew; simpl in *; try lia;
      [done|].
    destruct i as [|i]; [|done]. simpl.
    apply msg_received_inv; simpl; auto.
  - unfold mbind, M_bind, get_self, put_self; simpl.
    apply Hdb; [by apply store_ok_add_entry|].
    by destruct (add_entry_other (db w) entry) as (_&_&_&->).
  - unfold mbind, M_bind, get_self, put_self; simpl.
    apply Hdb; [by eapply store_ok_ext | done].
  - unfold mbind, M_bind, get_self, put_self; simpl.
    apply Hdb; [by eapply store_ok_ext | done].
  - unfold mbind, M_bind, get_self, put_self; simpl.
    apply Hdb; [|done].
    by apply (store_ok_ext (__init__ 0 None)); [apply store_ok_init|..].
Qed.

Lemma inv_run (w : World) (evs : list Event) : inv w → inv (run w evs).
Proof.
  revert w. induction evs as [|ev evs IH]; intros w Hw; simpl; [done|].
  by apply IH, inv_exec.
Qed.

(** ** Replies, step by step *)

Lemma started_store_kept (w w' : World) : started w w' → store_kept w w'.
Proof. intros (? & ? & ? & ? & ? & _). by repeat apply conj. Qed.

Lemma store_kept_same (w w' : World) :
  entries (db w') = entries (db w) → groups (db w') = groups (db w) →
  _mem_locs (db w') = _mem_locs (db w) → delta (db w') = delta (db w) →
  unused (db w') = unused (db w) → store_kept w w'.
Proof. intros. repeat apply conj; try done. by left. Qed.

Lemma done_cb_store_kept w cb success msg entry :
  store_kept w (after (done_cb cb success msg entry) w).
Proof.
  unfold after, done_cb, LOG, put_self, get_self, raise, mbind, M_bind, mret,
    M_ret.
  assert (Hrest : ∀ w' rest,
    entries (db w') = entries (db w) → groups (db w') = groups (db w) →
    _mem_locs (db w') = _mem_locs (db w) → delta (db w') = delta (db w) →
    unused (db w') = unused (db w) →
    store_kept w
      (snd (match rest with
            | q :: _ => invoke q w'
            | [] => call (captured cb) success msg entry w'
            end))).
  { intros w' rest He Hg Hm Hd Hu. destruct rest as [|q rest].
    - unfold call. destruct (captured cb); simpl; by apply store_kept_same.
    - destruct (started_store_kept w' _ (invoke_started w' q))
        as (He' & Hg' & Hm' & Hd' & Hu').
      unfold after in *. rewrite Hu in Hu'.
      repeat apply conj; congruence. }
  destruct cb; simpl.
  - destruct (_pending (db w)) as [|p rest] eqn:Ep; simpl;
      [by apply store_kept_same|].
    destruct rest as [|q rest]; simpl.
    + by apply (Hrest _ []).
    + by apply (Hrest _ (q :: rest)).
  - destruct (_pending (db w)) as [|p rest] eqn:Ep; simpl;
      [by apply store_kept_same|].
    destruct rest as [|q rest]; simpl.
    + by apply (Hrest _ []).
    + by apply (Hrest _ (q :: rest)).
Qed.

(** [done_cb] when only the marker of the finished request is pending. *)
Lemma done_cb_last w cb success msg entry p :
  _pending (db w) = [p] →
  let w' := after (done_cb cb success msg entry) w in
  db w' = set_pending (db w) [] ∧ wire w' = wire w ∧
  waiting w' = waiting w ∧
  calls w' =
    calls w ++ match captured cb with
               | Some f => [mkCall f success msg entry]
               | None => []
               end.
Proof.
  intros Hp. unfold_cb.
  destruct cb as [f|f]; simpl; rewrite Hp; simpl;
    destruct f; simpl; by rewrite ?app_nil_r.
Qed.

(** The acknowledged write was the last of its exchange. *)
Lemma exec_reply_ack_final w h :
  waiting w = [h] → h_next h = [] →
  exec w (Reply 0 true) =
  after (done_cb (h_on_done h) true (HandlerText true)
           (Some (h_entry h)))
    (mkWorld (add_entry (db w) (h_entry h)) (wire w) [] (calls w) (logged w)).
Proof.
  intros Hw Hn. unfold exec, step, after, msg_received, mbind, M_bind,
    get_self, put_self. rewrite Hw. simpl. by rewrite Hn.
Qed.

(** The acknowledged write has a followup: it is sent, and nothing else
    happens. *)
Lemma exec_reply_ack_next w h msg entry rest :
  waiting w = [h] → h_next h = (msg, entry) :: rest →
  exec w (Reply 0 true) =
  mkWorld (add_entry (db w) (h_entry h)) (wire w ++ [msg])
    [mkHandler entry (h_on_done h) rest] (calls w) (logged w).
Proof.
  intros Hw Hn. unfold exec, step, after, msg_received, mbind, M_bind,
    get_self, put_self, send. rewrite Hw. simpl. by rewrite Hn.
Qed.

(** The write was refused. *)
Lemma exec_reply_nak w h :
  waiting w = [h] →
  exec w (Reply 0 false) =
  after (done_cb (h_on_done h) false (HandlerText false) None)
    (mkWorld (db w) (wire w) [] (calls w) (logged w)).
Proof.
  intros Hw. unfold exec, step, after, msg_received. by rewrite Hw.
Qed.

Lemma exec_reply_completes w h ack p q rest :
  waiting w = [h] → (ack = true → h_next h = []) →
  _pending (db w) = p :: q :: rest →
  ∃ lg,
    exec w (Reply 0 ack) =
    after (invoke q)
      (mkWorld
         (set_pending (if ack then add_entry (db w) (h_entry h) else db w)
            (q :: rest))
         (wire w) [] (calls w) lg).
Proof.
  intros Hw Hn Hp. destruct ack.
  - rewrite (exec_reply_ack_final w h Hw (Hn eq_refl)).
    unfold after, done_cb, LOG, put_self, get_self, mbind, M_bind, mret, M_ret.
    destruct (add_entry_other (db w) (h_entry h)) as (_ & _ & _ & Hp').
    rewrite Hp in Hp'.
    destruct (h_on_done h); simpl; rewrite Hp'; simpl; by eexists.
  - rewrite (exec_reply_nak w h Hw).
    unfold after, done_cb, LOG, put_self, get_self, mbind, M_bind, mret, M_ret.
    destruct (h_on_done h); simpl; rewrite Hp; simpl; by eexists.
Qed.

(** ** Requests, idle or busy *)

Lemma inv_idle (w : World) : inv w → _pending (db w) = [] → waiting w = [].
Proof.
  intros [_ [_ Hbusy]] Hp. destruct (waiting w); [done|].
  exfalso. by apply Hbusy.
Qed.

Lemma exec_add_idle w a g ctrl d on_done :
  _pending (db w) = [] →
  exec w (AddOnDevice a g ctrl d on_done) =
  after (_add_on_device a g ctrl d on_done) w.
Proof.
  intros Hp. unfold exec, step, after, add_on_device, mbind, M_bind, get_self.
  simpl. by rewrite Hp.
Qed.

Lemma exec_request_idle w req c :
  continuation req = Some c → _pending (db w) = [] →
  exec w req = after (invoke c) w.
Proof.
  intros Hc Hp. destruct req; simpl in Hc; try done; injection Hc as <-;
    unfold exec, step, after, add_on_device, delete_on_device, mbind, M_bind,
      get_self; simpl; by rewrite Hp.
Qed.

Lemma exec_request_busy w req c :
  continuation req = Some c → _pending (db w) ≠ [] →
  let w' := exec w req in
  db w' = set_pending (db w) (_pending (db w) ++ [c]) ∧
  wire w' = wire w ∧ waiting w' = waiting w ∧ calls w' = calls w.
Proof.
  intros Hc Hp. destruct req; simpl in Hc; try done; injection Hc as <-;
    unfold exec, step, after, add_on_device, delete_on_device, mbind, M_bind,
      get_self, LOG, put_self; simpl;
    by destruct (_pending (db w)).
Qed.

(** ** What does hold of the indices *)

(** What does hold of [add_entry]: the slots of [_mem_locs] are those of
    the two dicts, provided they were before. *)
Lemma add_entry_mem_locs_union (d : Device) (e : DeviceEntry.t) :
  (∀ k, k ∈ _mem_locs d ↔
        k ∈ PyDict.keys (entries d) ∨ k ∈ PyDict.keys (unused d)) →
  ∀ k, k ∈ _mem_locs (add_entry d e) ↔
       k ∈ PyDict.keys (entries (add_entry d e)) ∨
       k ∈ PyDict.keys (unused (add_entry d e)).
Proof.
  intros H k.
  rewrite add_entry_mem_locs, add_entry_entries, add_entry_unused.
  rewrite elem_of_union, elem_of_singleton, H.
  destruct (in_use _); rewrite PyDictFacts.keys_set; tauto.
Qed.

Lemma elem_of_del_first_addr (a : Address) (l : list DeviceEntry.t)
    (e : DeviceEntry.t) :
  e ∈ del_first_addr a l → e ∈ l.
Proof.
  induction l as [|r l IH]; simpl; [done|].
  destruct (DeviceEntry.addr r =? a).
  - intros H. by apply elem_of_cons; right.
  - intros [->|H]%elem_of_cons; apply elem_of_cons; [by left | right; auto].
Qed.

Lemma groups_ok_ext (d d' : Device) :
  groups_ok d → entries d' = entries d → groups d' = groups d → groups_ok d'.
Proof.
  intros H He Hg g e. unfold find_group. rewrite Hg, He. apply H.
Qed.

Lemma groups_ok_add_entry (d : Device) (entry : DeviceEntry.t) :
  groups_ok d → groups_ok (add_entry d entry).
Proof.
  intros H g e. unfold find_group.
  assert (Hkeep : ∀ g' e', e' ∈ default [] (groups d !! g') →
    is_controller (DeviceEntry.db_flags e') = true ∧
    in_use (DeviceEntry.db_flags e') = true ∧
    DeviceEntry.group e' = g' ∧
    DeviceEntry.mem_loc e' ∈ PyDict.keys (entries (add_entry d entry))).
  { intros g' e' He'. destruct (H g' e' He') as (? & ? & ? & Hk).
    repeat split; try done. rewrite add_entry_entries.
    destruct (in_use (DeviceEntry.db_flags entry)); [|done].
    apply PyDictFacts.keys_set. by right. }
  unfold add_entry at 1.
  destruct (in_use (DeviceEntry.db_flags entry)) eqn:Eu,
    (is_controller (DeviceEntry.db_flags entry)) eqn:Ec; simpl.
  - destruct (decide (DeviceEntry.group entry = g)) as [<-|Hne].
    + rewrite lookup_insert_eq. simpl.
      destruct (py_in entry _); [by apply Hkeep|].
      intros [He|He]%elem_of_app; [by apply Hkeep|].
      apply list_elem_of_singleton in He as ->. repeat split; try done.
      rewrite add_entry_entries, Eu. apply PyDictFacts.keys_set. by left.
    + rewrite lookup_insert_ne by done. by apply Hkeep.
  - by apply Hkeep.
  - destruct (groups d !! DeviceEntry.group entry) as [l|] eqn:El; simpl;
      [|by apply Hkeep].
    destruct (decide (DeviceEntry.group entry = g)) as [<-|Hne].
    + rewrite lookup_insert_eq. simpl. intros He%elem_of_del_first_addr.
      apply Hkeep. by rewrite El.
    + rewrite lookup_insert_ne by done. by apply Hkeep.
  - by apply Hkeep.
Qed.

(** The part of C3 that holds in every world reached from a fresh
    database: see [groups_ok]. *)
Lemma groups_ok_run (a0 : Address) (path : option string)
    (evs : list Event) :
  groups_ok (db (run (boot a0 path) evs)).
Proof.
  assert (Hexec : ∀ w ev, groups_ok (db w) → groups_ok (db (exec w ev))).
  { intros w ev H.
    assert (Hkept : ∀ w1 w2, groups_ok (db w1) → store_kept w1 w2 →
              groups_ok (db w2)).
    { intros w1 w2 H1 (He & Hg & _). by eapply groups_ok_ext. }
    destruct ev as [a g ctrl d on_done|entry on_done|i ack|entry|dl|p|];
      unfold exec; simpl.
    - unfold add_on_device, mbind, M_bind, get_self; simpl.
      destruct (_pending (db w)); [|done].
      apply (Hkept w); [done|].
      apply started_store_kept, _add_on_device_started.
    - unfold delete_on_device, mbind, M_bind, get_self; simpl.
      destruct (_pending (db w)); [|done].
      apply (Hkept w); [done|].
      apply started_store_kept, _delete_on_device_started.
    - destruct (waiting w !! i) as [h|]; [|done].
      unfold msg_received. destruct ack.
      + unfold mbind, M_bind, get_self, put_self; simpl.
        destruct (h_next h) as [|[msg entry] rest]; simpl;
          [|by apply groups_ok_add_entry].
        eapply Hkept; [|apply done_cb_store_kept]. simpl.
        by apply groups_ok_add_entry.
      + eapply Hkept; [|apply done_cb_store_kept]. done.
    - by apply groups_ok_add_entry.
    - done.
    - done.
    - intros g e He. by apply elem_of_nil in He. }
  induction evs as [|ev evs IH] using rev_ind.
  - intros g e He. by apply elem_of_nil in He.
  - unfold run in *. rewrite fold_left_app. simpl. by apply Hexec.
Qed.

(** ** Replacing and replaying records *)

Lemma set_app_l {V : Type} (d d' : PyDict.t V) (k : Z) (v : V) :
  k ∈ PyDict.keys d → PyDict.set (d ++ d') k v = PyDict.set d k v ++ d'.
Proof.
  unfold PyDict.keys. induction d as [|[k0 v0] d IH]; simpl.
  - intros H. by apply elem_of_nil in H.
  - intros H. destruct (k0 =? k) eqn:E; [done|].
    apply elem_of_cons in H as [->|H]; [by rewrite Z.eqb_refl in E|].
    simpl. by rewrite IH.
Qed.

Lemma elem_of_set_wf {V : Type} (d : PyDict.t V) (k k' : Z) (v v' : V) :
  PyDict.wf d → (k', v') ∈ PyDict.set d k v →
  (k' = k ∧ v' = v) ∨ ((k', v') ∈ d ∧ k' ≠ k).
Proof.
  unfold PyDict.wf, PyDict.keys. induction d as [|[k0 v0] d IH]; simpl.
  - intros _ H%list_elem_of_singleton. injection H as -> ->. by left.
  - intros [Hk0 Hd]%NoDup_cons. destruct (k0 =? k) eqn:E.
    + apply Z.eqb_eq in E; subst k0.
      intros [H|H]%elem_of_cons; [injection H as -> ->; by left|].
      right. split; [by apply elem_of_cons; right|].
      intros ->. apply Hk0. apply list_elem_of_fmap. by exists (k, v').
    + apply Z.eqb_neq in E.
      intros [H|H]%elem_of_cons.
      * injection H as -> ->. right. split; [by apply elem_of_cons; left|done].
      * destruct (IH Hd H) as [?|[? ?]]; [by left|].
        right. split; [by apply elem_of_cons; right|done].
Qed.

Lemma filter_none {A : Type} (f : A → bool) (l : list A) :
  (∀ x, x ∈ l → f x = false) → List.filter f l = [].
Proof.
  induction l as [|x l IH]; simpl; [done|]. intros H.
  rewrite (H x) by (by apply elem_of_cons; left).
  apply IH. intros y Hy. apply H. by apply elem_of_cons; right.
Qed.

Lemma fold_add_entry_used (l : PyDict.t DeviceEntry.t) (acc : Device) :
  NoDup (PyDict.keys (entries acc ++ l)) →
  (∀ k e, (k, e) ∈ l →
     DeviceEntry.mem_loc e = k ∧ in_use (DeviceEntry.db_flags e) = true) →
  let r := fold_left add_entry (PyDict.values l) acc in
  entries r = entries acc ++ l ∧ unused r = unused acc ∧
  delta r = delta acc ∧ addr r = addr acc ∧ save_path r = save_path acc.
Proof.
  revert acc. induction l as [|[k e] l IH]; intros acc Hnd Hkey; simpl.
  - by rewrite app_nil_r.
  - destruct (Hkey k e) as [Hk Hu]; [by apply elem_of_cons; left|].
    assert (Hfresh : k ∉ PyDict.keys (entries acc)).
    { unfold PyDict.keys in *. rewrite fmap_app in Hnd.
      apply NoDup_app in Hnd as (_ & Hdis & _). intros H.
      apply (Hdis k H). simpl. by apply elem_of_cons; left. }
    assert (He : entries (add_entry acc e) = entries acc ++ [(k, e)]).
    { rewrite add_entry_entries, Hu, Hk. by apply PyDictFacts.set_fresh. }
    destruct (IH (add_entry acc e)) as (H1 & H2 & H3 & H4 & H5).
    + rewrite He, <- app_assoc. exact Hnd.
    + intros k' e' H. apply Hkey. by apply elem_of_cons; right.
    + destruct (add_entry_other acc e) as (Ha & Hs & Hd & _).
      rewrite H1, H2, H3, H4, H5, He, <- app_assoc, add_entry_unused, Hu.
      by repeat split.
Qed.

Lemma fold_add_entry_unused (l : PyDict.t DeviceEntry.t) (acc : Device) :
  NoDup (PyDict.keys (unused acc ++ l)) →
  (∀ k e, (k, e) ∈ l →
     DeviceEntry.mem_loc e = k ∧ in_use (DeviceEntry.db_flags e) = false) →
  let r := fold_left add_entry (PyDict.values l) acc in
  unused r = unused acc ++ l ∧ entries r = entries acc ∧
  delta r = delta acc ∧ addr r = addr acc ∧ save_path r = save_path acc.
Proof.
  revert acc. induction l as [|[k e] l IH]; intros acc Hnd Hkey; simpl.
  - by rewrite app_nil_r.
  - destruct (Hkey k e) as [Hk Hu]; [by apply elem_of_cons; left|].
    assert (Hfresh : k ∉ PyDict.keys (unused acc)).
    { unfold PyDict.keys in *. rewrite fmap_app in Hnd.
      apply NoDup_app in Hnd as (_ & Hdis & _). intros H.
      apply (Hdis k H). simpl. by apply elem_of_cons; left. }
    assert (He : unused (add_entry acc e) = unused acc ++ [(k, e)]).
    { rewrite add_entry_unused, Hu, Hk. by apply PyDictFacts.set_fresh. }
    destruct (IH (add_entry acc e)) as (H1 & H2 & H3 & H4 & H5).
    + rewrite He, <- app_assoc. exact Hnd.
    + intros k' e' H. apply Hkey. by apply elem_of_cons; right.
    + destruct (add_entry_other acc e) as (Ha & Hs & Hd & _).
      rewrite H1, H2, H3, H4, H5, He, <- app_assoc, add_entry_entries, Hu.
      by repeat split.
Qed.

(** What the round trip does keep.  For every database whose two dicts
    have the shape [store_ok], [from_json (to_json db) path] has the
    entries and unused dicts of [db], in the same order, its delta and
    its address, and saves to [path]. *)
Lemma round_trip_keeps_dicts (d : Device) (path : option string) :
  store_ok d →
  let d' := from_json (to_json d) path in
  entries d' = entries d ∧ unused d' = unused d ∧ delta d' = delta d ∧
  addr d' = addr d ∧ save_path d' = path.
Proof.
  intros [Hwe Hwu Hke Hku _]. unfold from_json, to_json. simpl.
  set (d0 := set_delta (__init__ (addr d) path) (delta d)).
  destruct (fold_add_entry_used (entries d) d0) as (H1 & H2 & H3 & H4 & H5);
    [done | done |].
  destruct (fold_add_entry_unused (unused d)
              (fold_left add_entry (PyDict.values (entries d)) d0))
    as (G1 & G2 & G3 & G4 & G5); [by rewrite H2 | done |].
  by rewrite G1, G2, G3, G4, G5, H1, H2, H3, H4, H5.
Qed.

Lemma store_ok_relinked : store_ok relinked.
Proof. repeat apply store_ok_add_entry. apply store_ok_init. Qed.

(** ** What a call that starts puts on the wire *)

Lemma get_is_Some {V : Type} (d : PyDict.t V) (k : Z) :
  k ∈ PyDict.keys d → is_Some (PyDict.get d k).
Proof.
  intros H. destruct (PyDict.get d k) eqn:E; [by eexists|].
  by apply PyDictFacts.get_None_keys in E.
Qed.

Lemma keys_remove_wf {V : Type} (d : PyDict.t V) (k : Z) :
  PyDict.wf d → k ∉ PyDict.keys (PyDict.remove d k).
Proof.
  unfold PyDict.wf, PyDict.keys, PyDict.remove.
  induction d as [|[k0 v0] d IH]; simpl.
  - intros _. apply not_elem_of_nil.
  - intros [Hk0 Hd]%NoDup_cons. destruct (k0 =? k) eqn:E.
    + apply Z.eqb_eq in E. by subst k0.
    + apply Z.eqb_neq in E. simpl. apply not_elem_of_cons. split; [done|].
      by apply IH.
Qed.

Lemma add_entry_set_pending (d : Device) (p : list Pending)
    (e : DeviceEntry.t) :
  add_entry (set_pending d p) e = set_pending (add_entry d e) p.
Proof.
  unfold add_entry.
  destruct (in_use _), (is_controller _); simpl; try done.
  by destruct (groups d !! _).
Qed.

Lemma set_pending_same (d : Device) (p : list Pending) :
  _pending d = p → set_pending d p = d.
Proof. intros <-. by destruct d. Qed.

Lemma set_pending_twice (d : Device) (p q : list Pending) :
  set_pending (set_pending d p) q = set_pending d q.
Proof. done. Qed.

Lemma elem_of_get {V : Type} (d : PyDict.t V) (k : Z) (v : V) :
  PyDict.wf d → (k, v) ∈ d → PyDict.get d k = Some v.
Proof.
  unfold PyDict.wf, PyDict.keys. induction d as [|[k0 v0] d IH]; simpl.
  - intros _ H. by apply elem_of_nil in H.
  - intros [Hk0 Hd]%NoDup_cons Hin.
    change (PyDict.get ((k0, v0) :: d) k)
      with (if k0 =? k then Some v0 else PyDict.get d k).
    apply elem_of_cons in Hin as [Hin|Hin].
    + injection Hin as -> ->. by rewrite Z.eqb_refl.
    + destruct (k0 =? k) eqn:E; [|by apply IH].
      apply Z.eqb_eq in E; subst k0. exfalso. apply Hk0.
      apply list_elem_of_fmap. by exists (k, v).
Qed.

Lemma elem_of_set_ne {V : Type} (d : PyDict.t V) (k k' : Z) (v v' : V) :
  (k, v) ∈ d → k ≠ k' → (k, v) ∈ PyDict.set d k' v'.
Proof.
  induction d as [|[k0 v0] d IH]; simpl.
  - intros H. by apply elem_of_nil in H.
  - intros [H|H]%elem_of_cons Hne.
    + injection H as <- <-.
      destruct (k =? k') eqn:E; [apply Z.eqb_eq in E; done|].
      by apply elem_of_cons; left.
    + destruct (k0 =? k'); apply elem_of_cons; right; auto.
Qed.

Lemma length_remove {V : Type} (d : PyDict.t V) (k : Z) :
  k ∈ PyDict.keys d → S (length (PyDict.remove d k)) = length d.
Proof.
  unfold PyDict.keys, PyDict.remove. induction d as [|[k0 v0] d IH]; simpl.
  - intros H. by apply elem_of_nil in H.
  - intros H. destruct (k0 =? k) eqn:E; [done|].
    apply Z.eqb_neq in E. apply elem_of_cons in H as [->|H]; [done|].
    simpl. by rewrite IH.
Qed.



(** * The claims of the specification *)

(** ** C1: when the record store changes *)

(** C1, as stated, fails: on a database with one record in use and one
    freed slot, an add of a new (peer, group, role) takes the freed slot
    out of [unused] as the request is issued, while its write still
    awaits the reply; when the device then refuses the write, [on_done]
    gets success=false and [unused] is not what it was before the
    request. *)
Lemma C1_reuse_takes_slot_before_reply :
  let w1 := exec one_free (AddOnDevice P2 2 false None (Some 1%nat)) in
  let w2 := exec w1 (Reply 0 false) in
  PyDict.keys (unused (db one_free)) = [0x0ff0] ∧
  length (waiting w1) = 1%nat ∧
  unused (db w1) = [] ∧
  unused (db w2) = [] ∧
  unused (db w2) ≠ unused (db one_free) ∧
  calls w2 = [mkCall 1%nat false (HandlerText false) None].
Proof. vm_compute. repeat split. intros H. discriminate H. Qed.

(** C1, amended.  [entries], [groups] and [_mem_locs] are mutated only
    as a write is acknowledged.  No request (add or delete, run at once
    or deferred) and no refusal changes them, and the acknowledgment of
    a write commits the record of that write with [add_entry], there
    and then.  Of [unused]: an add that starts under the growth strategy
    leaves it empty as it was; an add that starts under the reuse
    strategy takes the highest slot out of it at once, in the step that
    sends the write and so before any acknowledgment; and no request or
    refusal does anything else to it (a refusal may start a deferred
    add, which takes its slot in turn). *)
Theorem C1_store_changes_only_on_ack (w : World) :
  (∀ ev, commits ev = false →
     let w' := exec w ev in
     entries (db w') = entries (db w) ∧
     groups (db w') = groups (db w) ∧
     _mem_locs (db w') = _mem_locs (db w) ∧
     (unused (db w') = unused (db w) ∨
      ∃ k, py_max (PyDict.keys (unused (db w))) = Some k ∧
           unused (db w') = PyDict.remove (unused (db w)) k)) ∧
  (∀ i h, waiting w !! i = Some h →
     let d := add_entry (db w) (h_entry h) in
     let w' := exec w (Reply i true) in
     entries (db w') = entries d ∧
     groups (db w') = groups d ∧
     _mem_locs (db w') = _mem_locs d ∧
     (unused (db w') = unused d ∨
      ∃ k, py_max (PyDict.keys (unused d)) = Some k ∧
           unused (db w') = PyDict.remove (unused d) k)) ∧
  (∀ a g ctrl d on_done, unused (db w) = [] →
     unused (db (after (_add_on_device a g ctrl d on_done) w)) = []) ∧
  (∀ a g ctrl d on_done,
     find (db w) a g ctrl = None → entries (db w) ≠ [] →
     unused (db w) ≠ [] →
     let w' := after (_add_on_device a g ctrl d on_done) w in
     ∃ k u,
       py_max (PyDict.keys (unused (db w))) = Some k ∧
       PyDict.get (unused (db w)) k = Some u ∧
       unused (db w') = PyDict.remove (unused (db w)) k ∧
       S (length (unused (db w'))) = length (unused (db w)) ∧
       wire w' =
         wire w ++ [mkMsg (addr (db w)) 0x2f 0x00
                      (DeviceEntry.update_from u a g ctrl (data_or_zero d))] ∧
       waiting w' =
         waiting w ++
           [mkHandler (DeviceEntry.update_from u a g ctrl (data_or_zero d))
              (add_done_cb on_done) []] ∧
       entries (db w') = entries (db w) ∧
       (_pending (db w) = [] →
        exec w (AddOnDevice a g ctrl d on_done) = w')).
Proof.
  assert (Hkept : ∀ w0 w', store_kept w0 w' →
    entries (db w') = entries (db w0) ∧ groups (db w') = groups (db w0) ∧
    _mem_locs (db w') = _mem_locs (db w0) ∧
    (unused (db w') = unused (db w0) ∨
     ∃ k, py_max (PyDict.keys (unused (db w0))) = Some k ∧
          unused (db w') = PyDict.remove (unused (db w0)) k)).
  { intros w0 w' (? & ? & ? & _ & ?). by repeat apply conj. }
  assert (Hsame : ∀ w', entries (db w') = entries (db w) →
    groups (db w') = groups (db w) → _mem_locs (db w') = _mem_locs (db w) →
    unused (db w') = unused (db w) →
    entries (db w') = entries (db w) ∧ groups (db w') = groups (db w) ∧
    _mem_locs (db w') = _mem_locs (db w) ∧
    (unused (db w') = unused (db w) ∨
     ∃ k, py_max (PyDict.keys (unused (db w))) = Some k ∧
          unused (db w') = PyDict.remove (unused (db w)) k)).
  { intros. repeat apply conj; try done. by left. }
  split; [|split; [|split]].
  - intros ev Hev.
    destruct ev as [a g ctrl d on_done|entry on_done|i ack|entry|dl|p|];
      simpl in Hev; try done; unfold exec; simpl.
    + unfold add_on_device, mbind, M_bind, get_self; simpl.
      destruct (_pending (db w)); [|by apply Hsame].
      apply (Hkept w), started_store_kept, _add_on_device_started.
    + unfold delete_on_device, mbind, M_bind, get_self; simpl.
      destruct (_pending (db w)); [|by apply Hsame].
      apply (Hkept w), started_store_kept, _delete_on_device_started.
    + destruct ack; [done|].
      destruct (waiting w !! i) as [h|]; [|by apply Hsame].
      unfold msg_received.
      destruct (done_cb_store_kept
                  (mkWorld (db w) (wire w) (delete i (waiting w)) (calls w)
                     (logged w))
                  (h_on_done h) false (HandlerText false) None)
        as (? & ? & ? & _ & ?).
      by repeat apply conj.
    + by apply Hsame.
    + by apply Hsame.
  - intros i h Hi. simpl. unfold exec, step. rewrite Hi.
    unfold msg_received, mbind, M_bind, get_self, put_self. simpl.
    destruct (h_next h) as [|[msg e] rest]; simpl.
    + set (w0 := mkWorld (add_entry _ _) _ _ _ _).
      apply (Hkept w0), done_cb_store_kept.
    + repeat apply conj; try done. by left.
  - intros a g ctrl d on_done Hun.
    destruct (_add_on_device_started w a g ctrl d on_done)
      as (_ & _ & _ & _ & [Hu|(k & Hmax & _)] & _).
    + by rewrite Hu.
    + by rewrite Hun in Hmax.
  - intros a g ctrl d on_done Hfind Hent Hun. simpl.
    destruct (py_max_is_Some (PyDict.keys (unused (db w)))) as [k Hmax].
    { unfold PyDict.keys. by destruct (unused (db w)). }
    destruct (py_max_spec _ _ Hmax) as [Hin _].
    destruct (get_is_Some _ _ Hin) as [u Hget].
    destruct (_add_on_device_reuse w a g ctrl d on_done k u
                Hfind Hent Hmax Hget) as (_ & Hdb & Hwire & Hwait & _).
    simpl in Hdb, Hwire, Hwait.
    exists k, u. rewrite Hdb, Hwire, Hwait. simpl.
    repeat apply conj; try done.
    + by apply length_remove.
    + intros Hp. by apply exec_add_idle.
Qed.

(** C1, amended, at the add of the counterexample and at the
    acknowledgment of its write: the request takes slot 0x0FF0 out of
    [unused] and changes nothing else, and the acknowledgment commits
    the record at that slot. *)
Lemma C1_store_changes_only_on_ack_witness :
  let ev := AddOnDevice P2 2 false None (Some 1%nat) in
  let w1 := exec one_free ev in
  PyDict.keys (unused (db one_free)) = [0x0ff0] ∧
  unused (db w1) = [] ∧
  entries (db w1) = entries (db one_free) ∧
  groups (db w1) = groups (db one_free) ∧
  _mem_locs (db w1) = _mem_locs (db one_free) ∧
  PyDict.keys (entries (db (exec w1 (Reply 0 true)))) = [0x0ff8; 0x0ff0].
Proof.
  cbv zeta.
  destruct (C1_store_changes_only_on_ack one_free) as (H1 & _ & _ & H4).
  destruct (H1 (AddOnDevice P2 2 false None (Some 1%nat)) eq_refl)
    as (He & Hg & Hm & _).
  destruct (H4 P2 2 false None (Some 1%nat))
    as (k & u & Hmax & _ & Hu & _ & _ & _ & _ & Hexec);
    [reflexivity | discriminate | discriminate |].
  injection Hmax as <-.
  destruct (C1_store_changes_only_on_ack
              (exec one_free (AddOnDevice P2 2 false None (Some 1%nat))))
    as (_ & H2 & _).
  destruct (H2 0%nat _ eq_refl) as (He2 & _).
  split; [reflexivity|]. split; [by rewrite (Hexec eq_refl), Hu|].
  split; [exact He|]. split; [exact Hg|]. split; [exact Hm|].
  rewrite He2. reflexivity.
Defined.

(** ** C2: what [add_entry] does to a slot that is freed *)

(** C2.  The insert of the freed copy of a record that is in [entries]
    puts the slot into [unused] and leaves it in [entries]: the two key
    sets share slot 0x0FF8, both records are stored under it, and a lookup
    by slot still answers the earlier record.  The same happens through
    the protocol: after an acknowledged delete of [first_rec] the database
    still counts and finds it, and an add of the link just deleted is
    answered "Entry already exists". *)
Theorem C2_freed_slot_stays_in_entries :
  let d := fold_left add_entry [first_rec; first_rec_freed]
             (__init__ 0x0a0b0c None) in
  let w := run one_rec [DeleteOnDevice first_rec (Some 1%nat); Reply 0 true] in
  let w' := exec w (AddOnDevice P1 1 true None (Some 2%nat)) in
  (PyDict.keys (entries d) = [0x0ff8] ∧
   PyDict.keys (unused d) = [0x0ff8] ∧
   find_mem_loc d 0x0ff8 = Some first_rec ∧
   PyDict.get (unused d) 0x0ff8 = Some first_rec_freed ∧
   find d P1 1 true = Some first_rec ∧
   elements (_mem_locs d) = [0x0ff8]) ∧
  (db w = d ∧ __len__ (db w) = 1%nat ∧
   calls w = [mkCall 1%nat true (HandlerText true)
                (Some first_rec_freed)] ∧
   wire w' = wire w ∧
   last (calls w') =
     Some (mkCall 2%nat true "Entry already exists" (Some first_rec))).
Proof. vm_compute. repeat split. Qed.

(** ** C3: the group index after a slot is overwritten *)

(** C3.  After two inserts of different controller records for one slot,
    group 1 still lists the first record although [entries] holds only
    the second: no entry of [entries] has its peer, group and role, and
    the slot it names holds another record. *)
Theorem C3_overwritten_record_stays_in_group :
  let d := fold_left add_entry [first_rec; second_rec]
             (__init__ 0x0a0b0c None) in
  find_group d 1 = [first_rec] ∧
  PyDict.values (entries d) = [second_rec] ∧
  find d P1 1 true = None ∧
  find_mem_loc d (DeviceEntry.mem_loc first_rec) = Some second_rec.
Proof. vm_compute. repeat split. Qed.

(** ** C4: the growth strategy *)

(** C4, as stated, fails: on [followup_refused], where [unused] is empty,
    a growth add runs and both of its writes are acknowledged, and two
    entries carry the last-record flag afterwards. *)
Lemma C4_two_last_records_after_commit :
  let w3 := run followup_refused
              [AddOnDevice P3 3 false None None; Reply 0 true; Reply 0 true] in
  unused (db followup_refused) = [] ∧
  PyDict.keys (entries (db w3)) = [0x0ff8; 0x0ff0; 0x0fe8] ∧
  waiting w3 = [] ∧
  length (wire w3) = (length (wire followup_refused) + 2)%nat ∧
  map DeviceEntry.mem_loc (last_records (db w3)) = [0x0ff8; 0x0fe8] ∧
  ¬ (∃ e, last_records (db w3) = [e]).
Proof.
  vm_compute. repeat split. intros [e H]. discriminate H.
Qed.

(** C4, amended.  Let an add request run on a database whose [unused] is
    empty, with no matching entry, and let [last_entry] be the entry at
    [lowest = min(_mem_locs)].  Then the new entry is built at slot
    [lowest - 8], in use and flagged last record; its write is the only
    one sent before a reply, and nothing is committed yet; once it is
    acknowledged the write of [last_entry] with the flag cleared is sent;
    if instead it is refused (nothing else pending) no further write is
    sent.  After both acknowledgments the new entry is stored at
    [lowest - 8], which is the new minimum of [_mem_locs], the previous
    last record is stored with the flag cleared, every flagged entry
    other than the new one was flagged before, every entry other than
    [last_entry] that was flagged before still is, and if no entry other
    than [last_entry] was flagged before, the new entry is the one
    flagged entry. *)
Theorem C4_growth_appends_below_last w a g ctrl d on_done lowest last_entry :
  inv w → waiting w = [] →
  find (db w) a g ctrl = None →
  entries (db w) ≠ [] →
  unused (db w) = [] →
  py_min (elements (_mem_locs (db w))) = Some lowest →
  find_mem_loc (db w) lowest = Some last_entry →
  let entry :=
    DeviceEntry.mk a g (lowest - 0x08) (mkDbFlags true ctrl true)
      (data_or_zero d) in
  let new_last := DeviceEntry.set_is_last_rec last_entry false in
  let w1 := after (_add_on_device a g ctrl d on_done) w in
  let w2 := exec w1 (Reply 0 true) in
  let w3 := exec w2 (Reply 0 true) in
  (wire w1 = wire w ++ [mkMsg (addr (db w)) 0x2f 0x00 entry] ∧
   length (waiting w1) = 1%nat ∧
   entries (db w1) = entries (db w) ∧ _mem_locs (db w1) = _mem_locs (db w)) ∧
  (wire w2 = wire w1 ++ [mkMsg (addr (db w)) 0x2f 0x00 new_last] ∧
   waiting w2 = [mkHandler new_last (add_done_cb on_done) []]) ∧
  (_pending (db w) = [] →
   exec w (AddOnDevice a g ctrl d on_done) = w1 ∧
   wire (exec w1 (Reply 0 false)) = wire w1 ∧ wire w3 = wire w2) ∧
  find_mem_loc (db w3) (lowest - 0x08) = Some entry ∧
  find_mem_loc (db w3) lowest = Some new_last ∧
  py_min (elements (_mem_locs (db w3))) = Some (lowest - 0x08) ∧
  (∀ e, e ∈ last_records (db w3) → e = entry ∨ e ∈ last_records (db w)) ∧
  (∀ e, e ∈ last_records (db w) → e ≠ last_entry →
     e ∈ last_records (db w3)) ∧
  ((∀ e, e ∈ last_records (db w) → e = last_entry) →
   last_records (db w3) = [entry]).
Proof.
  intros [Hok Hq] Hw Hfind Hent Hun Hmin Hlast.
  pose proof (PyDictFacts.get_Some_elem_of _ _ _ Hlast) as Hin.
  destruct (entries_keyed _ Hok _ _ Hin) as [Hloc Huse].
  destruct (py_min_spec _ _ Hmin) as [Hlow Hle].
  destruct (_add_on_device_grow w a g ctrl d on_done lowest last_entry
              Hfind Hent Hun Hmin Hlast)
    as (_ & Hdb1 & Hwire1 & Hwait1 & Hcalls1).
  rewrite Hloc in Hwire1, Hwait1. rewrite Hw in Hwait1. simpl in Hwait1.
  set (entry := DeviceEntry.mk a g (lowest - 8) (mkDbFlags true ctrl true)
                  (data_or_zero d)) in *.
  set (new_last := DeviceEntry.set_is_last_rec last_entry false) in *.
  set (w1 := after (_add_on_device a g ctrl d on_done) w) in *.
  simpl.
  rewrite (exec_reply_ack_next w1 _ _ _ _ Hwait1 eq_refl). simpl.
  set (w2 := mkWorld (add_entry (db w1) entry)
               (wire w1 ++ [mkMsg (addr (db w)) 47 0 new_last])
               [mkHandler new_last (add_done_cb on_done) []]
               (calls w1) (logged w1)).
  rewrite (exec_reply_ack_final w2 _ eq_refl eq_refl). simpl.
  set (w2' := mkWorld (add_entry (add_entry (db w1) entry) new_last)
                (wire w1 ++ [mkMsg (addr (db w)) 47 0 new_last]) []
                (calls w1) (logged w1)).
  set (w3 := after (done_cb (add_done_cb on_done) true
                      (HandlerText true) (Some new_last)) w2').
  destruct (done_cb_store_kept w2' (add_done_cb on_done) true
              (HandlerText true) (Some new_last))
    as (He3 & _ & Hm3 & _). fold w3 in He3, Hm3.
  assert (He1 : entries (db w1) = entries (db w)) by by rewrite Hdb1.
  assert (Hm1 : _mem_locs (db w1) = _mem_locs (db w)) by by rewrite Hdb1.
  (* the new slot is below every known slot *)
  assert (Hfresh : lowest - 8 ∉ PyDict.keys (entries (db w))).
  { intros H. assert (lowest - 8 ∈ _mem_locs (db w)) as H'
      by (apply (mem_locs_superset _ Hok); by left).
    apply elem_of_elements, Hle in H'. lia. }
  assert (Hkey : lowest ∈ PyDict.keys (entries (db w)))
    by by eapply PyDictFacts.elem_of_keys.
  assert (He2' : entries (db w2') =
                 PyDict.set (entries (db w)) lowest new_last
                 ++ [(lowest - 8, entry)]).
  { unfold w2'. simpl. rewrite !add_entry_entries. simpl.
    rewrite Huse, Hloc, He1, (PyDictFacts.set_fresh _ _ _ Hfresh).
    by apply set_app_l. }
  assert (Hm2' : _mem_locs (db w2') =
                 {[lowest]} ∪ ({[lowest - 8]} ∪ _mem_locs (db w))).
  { unfold w2'. simpl. rewrite !add_entry_mem_locs. simpl.
    by rewrite Hloc, Hm1. }
  (* entries of the result, flagged or not *)
  assert (Hold : ∀ e, e ∈ PyDict.values
                        (PyDict.set (entries (db w)) lowest new_last) →
            is_last_rec (DeviceEntry.db_flags e) = true →
            e ∈ last_records (db w) ∧ e ≠ last_entry).
  { intros e [k He]%PyDictFacts.elem_of_values Hflag.
    apply elem_of_set_wf in He as [[_ ->]|[He Hne]];
      [done | | apply (entries_wf _ Hok)].
    split.
    - apply list_elem_of_In, filter_In. split; [|done].
      apply list_elem_of_In, PyDictFacts.elem_of_values. by exists k.
    - intros ->. destruct (entries_keyed _ Hok _ _ He) as [Hk _]. congruence. }
  split. { rewrite Hwire1, Hwait1. by repeat split. }
  split; [done|]. split.
  { intros Hp. split; [by apply exec_add_idle|].
    assert (Hp1 : _pending (db w1) = [PendingTrue])
      by (rewrite Hdb1; simpl; by rewrite Hp).
    split.
    - rewrite (exec_reply_nak w1 _ Hwait1).
      destruct (done_cb_last
           (mkWorld (db w1) (wire w1) [] (calls w1) (logged w1))
           (add_done_cb on_done) false (HandlerText false) None
           PendingTrue Hp1) as (_ & Hx & _). exact Hx.
    - unfold w3.
      destruct (done_cb_last w2' (add_done_cb on_done) true
           (HandlerText true) (Some new_last) PendingTrue)
        as (_ & Hx & _); [|exact Hx].
      unfold w2'. simpl.
      destruct (add_entry_other (add_entry (db w1) entry) new_last)
        as (_ & _ & _ & ->).
      by destruct (add_entry_other (db w1) entry) as (_ & _ & _ & ->). }
  split.
  { unfold find_mem_loc. rewrite He3, He2'.
    rewrite <- (PyDictFacts.set_fresh _ _ entry)
      by (intros H%PyDictFacts.keys_set; destruct H as [?|?]; [lia|done]).
    apply PyDictFacts.get_set_eq. }
  split.
  { unfold find_mem_loc. rewrite He3, He2'.
    rewrite <- set_app_l by done. apply PyDictFacts.get_set_eq. }
  split.
  { rewrite Hm3, Hm2'. apply py_min_unique.
    - apply elem_of_elements, elem_of_union. right.
      apply elem_of_union. left. by apply elem_of_singleton.
    - intros x Hx%elem_of_elements.
      apply elem_of_union in Hx as [Hx%elem_of_singleton|Hx]; [lia|].
      apply elem_of_union in Hx as [Hx%elem_of_singleton|Hx]; [lia|].
      apply elem_of_elements, Hle in Hx. lia. }
  assert (Hlr : last_records (db w3) =
                List.filter (λ e, is_last_rec (DeviceEntry.db_flags e))
                  (PyDict.values
                     (PyDict.set (entries (db w)) lowest new_last))
                ++ [entry]).
  { unfold last_records. rewrite He3, He2'. unfold PyDict.values.
    by rewrite map_app, List.filter_app. }
  split.
  { intros e. rewrite Hlr. intros [He|He]%elem_of_app.
    - right. apply list_elem_of_In, filter_In in He as [He Hflag].
      by apply Hold; [apply list_elem_of_In|].
    - left. by apply list_elem_of_singleton in He. }
  split.
  { intros e He Hne. rewrite Hlr. apply elem_of_app. left.
    apply list_elem_of_In, filter_In in He as [He Hflag].
    apply list_elem_of_In, PyDictFacts.elem_of_values in He as [k He].
    apply list_elem_of_In, filter_In. split; [|done].
    apply list_elem_of_In, PyDictFacts.elem_of_values. exists k.
    apply elem_of_set_ne; [done|].
    intros ->. apply Hne.
    pose proof (elem_of_get _ _ _ (entries_wf _ Hok) He) as Hget.
    unfold find_mem_loc in Hlast. congruence. }
  intros Honly. rewrite Hlr, filter_none; [done|].
  intros e He. destruct (is_last_rec (DeviceEntry.db_flags e)) eqn:Hflag;
    [|done].
  destruct (Hold e He Hflag) as [Hin' Hne]. by apply Honly in Hin'.
Qed.

(** C4, amended, on [one_rec]: the new record goes to 0x0FF0. *)
Lemma C4_growth_appends_below_last_witness :
  let entry := DeviceEntry.mk P2 1 0x0ff0 (mkDbFlags true true true)
                 [x01; x02; x03] in
  inv one_rec ∧ waiting one_rec = [] ∧
  find (db one_rec) P2 1 true = None ∧
  entries (db one_rec) ≠ [] ∧ unused (db one_rec) = [] ∧
  py_min (elements (_mem_locs (db one_rec))) = Some 0x0ff8 ∧
  find_mem_loc (db one_rec) 0x0ff8 = Some first_rec ∧
  (∀ e, e ∈ last_records (db one_rec) → e = first_rec) ∧
  last_records
    (db (exec (exec (after (_add_on_device P2 1 true (Some [x01; x02; x03])
                              (Some 1%nat)) one_rec)
                 (Reply 0 true)) (Reply 0 true)))
  = [entry].
Proof.
  assert (Hinv : inv one_rec) by apply inv_run, inv_boot.
  assert (Hent : entries (db one_rec) ≠ []) by (vm_compute; discriminate).
  assert (Honly : ∀ e, e ∈ last_records (db one_rec) → e = first_rec).
  { intros e H. change (last_records (db one_rec)) with [first_rec] in H.
    by apply list_elem_of_singleton in H. }
  split; [exact Hinv|]. split; [reflexivity|]. split; [reflexivity|].
  split; [exact Hent|]. split; [reflexivity|]. split; [reflexivity|].
  split; [reflexivity|]. split; [exact Honly|].
  apply (C4_growth_appends_below_last one_rec P2 1 true (Some [x01; x02; x03])
           (Some 1%nat) 0x0ff8 first_rec Hinv eq_refl eq_refl Hent eq_refl
           eq_refl eq_refl).
  exact Honly.
Defined.

(** ** C5: the reuse strategy *)

(** C5, as stated, fails: on [only_free], where nothing is pending, no
    entry matches and [unused] holds slot 0x0FF0, an add raises
    AssertionError before a strategy is chosen.  No record is selected or
    repurposed, no write is issued and [unused] still holds the slot. *)
Lemma C5_reuse_needs_an_entry_in_use :
  let w1 := exec only_free (AddOnDevice P2 2 false None (Some 1%nat)) in
  PyDict.keys (unused (db only_free)) = [0x0ff0] ∧
  _pending (db only_free) = [] ∧ waiting only_free = [] ∧
  find (db only_free) P2 2 false = None ∧
  outcome (add_on_device P2 2 false None (Some 1%nat)) only_free
    = Raise AssertionError ∧
  wire w1 = [] ∧ waiting w1 = [] ∧ calls w1 = [] ∧
  unused (db w1) = unused (db only_free) ∧ entries (db w1) = [].
Proof. vm_compute. by repeat split. Qed.

(** C5, amended.  Let an add request run ([_add_on_device] is entered
    while no exchange awaits a reply) on a database whose [unused] is not
    empty, with no matching entry and some entry in use.  Then the record
    [u] at the highest slot [k] of [unused] is taken and overwritten with
    the new peer, group and role and with the payload given (three zero
    bytes when none or an empty one is given), in use, at the same slot;
    exactly one write, of that record, is sent, and its handler has no
    followup; once it is acknowledged the record is the entry of
    [entries] at slot [k], a slot that was a key of [unused], and
    [_mem_locs] is what it was: no slot address is new. *)
Theorem C5_reuse_highest_unused w a g ctrl d on_done :
  inv w → waiting w = [] →
  find (db w) a g ctrl = None →
  entries (db w) ≠ [] →
  unused (db w) ≠ [] →
  ∃ k u,
    PyDict.get (unused (db w)) k = Some u ∧
    k ∈ PyDict.keys (unused (db w)) ∧
    (∀ k', k' ∈ PyDict.keys (unused (db w)) → k' ≤ k) ∧
    let entry := DeviceEntry.update_from u a g ctrl (data_or_zero d) in
    let w1 := after (_add_on_device a g ctrl d on_done) w in
    let w2 := exec w1 (Reply 0 true) in
    (DeviceEntry.mem_loc entry = k ∧ DeviceEntry.addr entry = a ∧
     DeviceEntry.group entry = g ∧
     is_controller (DeviceEntry.db_flags entry) = ctrl ∧
     in_use (DeviceEntry.db_flags entry) = true ∧
     is_last_rec (DeviceEntry.db_flags entry)
     = is_last_rec (DeviceEntry.db_flags u) ∧
     DeviceEntry.data entry =
       match d with
       | Some (b :: l) => b :: l
       | _ => [x00; x00; x00]
       end) ∧
    wire w1 = wire w ++ [mkMsg (addr (db w)) 0x2f 0x00 entry] ∧
    waiting w1 = [mkHandler entry (add_done_cb on_done) []] ∧
    entries (db w1) = entries (db w) ∧
    find_mem_loc (db w2) k = Some entry ∧
    (∀ k', k' ∈ PyDict.keys (entries (db w2)) ↔
           k' = k ∨ k' ∈ PyDict.keys (entries (db w))) ∧
    _mem_locs (db w2) = _mem_locs (db w) ∧
    (_pending (db w) = [] →
     exec w (AddOnDevice a g ctrl d on_done) = w1 ∧
     wire w2 = wire w1 ∧ waiting w2 = [] ∧
     unused (db w2) = PyDict.remove (unused (db w)) k ∧
     calls w2 =
       calls w ++
         match on_done with
         | Some f =>
             [mkCall f true (HandlerText true) (Some entry)]
         | None => []
         end).
Proof.
  intros [Hok Hq] Hw Hfind Hent Hun.
  destruct (py_max_is_Some (PyDict.keys (unused (db w)))) as [k Hmax].
  { unfold PyDict.keys. by destruct (unused (db w)). }
  destruct (py_max_spec _ _ Hmax) as [Hk Hle].
  destruct (PyDict.get (unused (db w)) k) as [u|] eqn:Hget;
    [|by apply PyDictFacts.get_None_keys in Hget].
  destruct (unused_keyed _ Hok k u (PyDictFacts.get_Some_elem_of _ _ _ Hget))
    as [Hloc Hfree].
  exists k, u. split; [done|]. split; [done|]. split; [done|].
  destruct (_add_on_device_reuse w a g ctrl d on_done k u Hfind Hent Hmax Hget)
    as (_ & Hdb1 & Hwire1 & Hwait1 & Hcalls1).
  set (entry := DeviceEntry.update_from u a g ctrl (data_or_zero d)) in *.
  set (w1 := after (_add_on_device a g ctrl d on_done) w) in *.
  simpl. rewrite Hw in Hwait1. simpl in Hwait1.
  rewrite (exec_reply_ack_final w1 _ Hwait1 eq_refl). simpl.
  set (w1' := mkWorld (add_entry (db w1) entry) (wire w1) [] (calls w1)
                (logged w1)).
  destruct (done_cb_store_kept w1' (add_done_cb on_done) true
              (HandlerText true) (Some entry))
    as (He2 & _ & Hm2 & _).
  assert (He1 : entries (db w1) = entries (db w)) by by rewrite Hdb1.
  assert (He1' : entries (db w1') =
                 PyDict.set (entries (db w)) k entry).
  { unfold w1'. simpl. rewrite add_entry_entries. simpl.
    by rewrite He1, Hloc. }
  assert (Hm1' : _mem_locs (db w1') = _mem_locs (db w)).
  { unfold w1'. simpl. rewrite add_entry_mem_locs. simpl.
    rewrite Hdb1. simpl. rewrite Hloc.
    apply subseteq_union_1_L, singleton_subseteq_l.
    apply (mem_locs_superset _ Hok). by right. }
  split; [by repeat split|]. split; [done|]. split; [done|]. split; [done|].
  split. { unfold find_mem_loc. rewrite He2, He1'.
           apply PyDictFacts.get_set_eq. }
  split. { intros k'. rewrite He2, He1'. apply PyDictFacts.keys_set. }
  split. { by rewrite Hm2. }
  intros Hp. split; [by apply exec_add_idle|].
  destruct (done_cb_last w1' (add_done_cb on_done) true
              (HandlerText true) (Some entry) PendingTrue)
    as (Hdb2 & Hwire2 & Hwait2 & Hcalls2).
  { unfold w1'. simpl.
    destruct (add_entry_other (db w1) entry) as (_ & _ & _ & ->).
    rewrite Hdb1. simpl. by rewrite Hp. }
  split; [done|]. split; [done|]. split.
  - rewrite Hdb2. simpl. rewrite add_entry_unused. simpl. by rewrite Hdb1.
  - rewrite Hcalls2. simpl. by rewrite Hcalls1.
Qed.

(** C5, amended, on [one_free]: the freed slot 0x0FF0 is reused and the
    committed record carries the payload of the request. *)
Lemma C5_reuse_highest_unused_witness :
  let w2 := exec (after (_add_on_device P2 2 false (Some [x01; x02; x03])
                           (Some 1%nat)) one_free) (Reply 0 true) in
  inv one_free ∧ waiting one_free = [] ∧
  find (db one_free) P2 2 false = None ∧
  entries (db one_free) ≠ [] ∧ unused (db one_free) ≠ [] ∧
  ∃ k u,
    PyDict.get (unused (db one_free)) k = Some u ∧
    find_mem_loc (db w2) k
    = Some (DeviceEntry.update_from u P2 2 false [x01; x02; x03]) ∧
    DeviceEntry.data (DeviceEntry.update_from u P2 2 false [x01; x02; x03])
    = [x01; x02; x03].
Proof.
  assert (Hinv : inv one_free) by apply inv_run, inv_boot.
  assert (Hent : entries (db one_free) ≠ []) by (vm_compute; discriminate).
  assert (Hun : unused (db one_free) ≠ []) by (vm_compute; discriminate).
  cbv zeta.
  split; [exact Hinv|]. split; [reflexivity|]. split; [reflexivity|].
  split; [exact Hent|]. split; [exact Hun|].
  destruct (C5_reuse_highest_unused one_free P2 2 false
              (Some [x01; x02; x03]) (Some 1%nat)
              Hinv eq_refl eq_refl Hent Hun)
    as (k & u & Hget & _ & _ & (_ & _ & _ & _ & _ & _ & Hdata) & _ & _ & _ &
        Hfound & _).
  exists k, u. split; [exact Hget|]. split; [exact Hfound | exact Hdata].
Defined.

(** ** C6: one exchange at a time *)



(** ** C7: the document round trip *)

(** C7.  [relinked] has the shape of every database built by the
    operations and lists [ctrl_below], its one entry in use, in group 1.
    The database rebuilt from its document has the same entries, unused
    slots and delta, and lists nothing in group 1: the document is
    replayed used entries first, and the freed record of the other slot
    then erases its peer from the group. *)
Theorem C7_groups_not_reproduced :
  let d' := from_json (to_json relinked) (save_path relinked) in
  store_ok relinked ∧
  PyDict.values (entries relinked) = [ctrl_below] ∧
  find_group relinked 1 = [ctrl_below] ∧
  find_group d' 1 = [] ∧
  groups d' ≠ groups relinked ∧
  entries d' = entries relinked ∧ unused d' = unused relinked ∧
  delta d' = delta relinked.
Proof.
  split; [exact store_ok_relinked|].
  split; [reflexivity|]. split; [reflexivity|]. split; [reflexivity|].
  split; [|repeat split; reflexivity].
  intros H. apply (f_equal (λ m, m !! 1)) in H. vm_compute in H. discriminate H.
Qed.

(** ** C8: adding what is already there *)

(** C8, as stated, fails: on [one_rec_busy], where the first add awaits
    its reply, an add of the link that [first_rec] records is not
    answered when it is made.  [on_done] is not called, and state is
    changed: the request is appended to [_pending] as a deferred call.
    It is answered only by the reply that completes the running
    exchange, and it then stays at the head of [_pending]. *)
Lemma C8_busy_add_existing_is_queued :
  let again := AddOnDevice P1 1 true None (Some 7%nat) in
  let w' := exec one_rec_busy again in
  let w'' := run w' [Reply 0 true; Reply 0 true] in
  find (db one_rec_busy) P1 1 true = Some first_rec ∧
  _pending (db one_rec_busy) = [PendingTrue] ∧
  length (waiting one_rec_busy) = 1%nat ∧
  calls w' = [] ∧
  _pending (db w') = [PendingTrue; PendingAdd P1 1 true None (Some 7%nat)] ∧
  db w' ≠ db one_rec_busy ∧
  map c_fn (calls w'') = [7%nat] ∧
  _pending (db w'') = [PendingAdd P1 1 true None (Some 7%nat)] ∧
  waiting w'' = [].
Proof.
  cbv zeta. repeat apply conj; try reflexivity.
  intros H. apply (f_equal _pending) in H. vm_compute in H. discriminate H.
Qed.

(** C8, amended.  When an entry of [entries] already matches (peer,
    group, role), an add that is started ([_add_on_device], entered at
    once or as a deferred call) returns normally at once, calls [on_done]
    (when one was given) with success=true, the message "Entry already
    exists" and the existing entry, sends nothing, registers no handler
    and leaves the database unchanged; so does [add_on_device] on a
    database with nothing pending.  On a database with something pending
    [add_on_device] calls nobody and sends nothing: it appends the
    request to [_pending] as a deferred call. *)
Theorem C8_add_existing_is_noop w a g ctrl d on_done entry :
  find (db w) a g ctrl = Some entry →
  (let w' := after (_add_on_device a g ctrl d on_done) w in
   outcome (_add_on_device a g ctrl d on_done) w = Ok tt ∧
   db w' = db w ∧ wire w' = wire w ∧ waiting w' = waiting w ∧
   calls w' =
     calls w ++ match on_done with
                | Some f => [mkCall f true "Entry already exists" (Some entry)]
                | None => []
                end) ∧
  (_pending (db w) = [] →
   let w' := exec w (AddOnDevice a g ctrl d on_done) in
   db w' = db w ∧ wire w' = wire w ∧ waiting w' = waiting w ∧
   calls w' =
     calls w ++ match on_done with
                | Some f => [mkCall f true "Entry already exists" (Some entry)]
                | None => []
                end) ∧
  (_pending (db w) ≠ [] →
   let w' := exec w (AddOnDevice a g ctrl d on_done) in
   outcome (add_on_device a g ctrl d on_done) w = Ok tt ∧
   db w' =
     set_pending (db w)
       (_pending (db w) ++ [PendingAdd a g ctrl d on_done]) ∧
   wire w' = wire w ∧ waiting w' = waiting w ∧ calls w' = calls w).
Proof.
  intros Hfind.
  pose proof (_add_on_device_exists w a g ctrl d on_done entry Hfind) as H.
  split; [exact H|]. split.
  - intros Hp. unfold exec, step, add_on_device, mbind, M_bind, get_self.
    simpl. rewrite Hp. destruct H as (_ & H). exact H.
  - intros Hp. split.
    + unfold outcome, add_on_device, LOG, put_self, mbind, M_bind, get_self.
      simpl. by destruct (_pending (db w)).
    + by apply (exec_request_busy w (AddOnDevice a g ctrl d on_done)).
Qed.

(** C8, amended, on [one_rec], for the record it holds. *)
Lemma C8_add_existing_is_noop_witness :
  find (db one_rec) P1 1 true = Some first_rec ∧
  _pending (db one_rec) = [] ∧
  let w' := exec one_rec (AddOnDevice P1 1 true None (Some 7%nat)) in
  db w' = db one_rec ∧ wire w' = [] ∧ waiting w' = [] ∧
  calls w' = [mkCall 7%nat true "Entry already exists" (Some first_rec)].
Proof.
  split; [reflexivity|]. split; [reflexivity|].
  apply (C8_add_existing_is_noop one_rec P1 1 true None (Some 7%nat) first_rec);
    reflexivity.
Defined.

(** ** C9: the growth strategy without a last record *)

(** C9.  [slot_lost] has nothing pending, no unused slot, and no entry at
    the lowest slot of [_mem_locs].  An add on it returns normally, logs
    the error, sends nothing, calls nobody and leaves the record store as
    it is, and the dummy [True] is pushed onto [_pending] all the same.
    No exchange awaits a reply, so nothing will ever pop it: the next
    request is queued behind it and is not started. *)
Theorem C9_abort_leaves_marker_pending :
  let w1 := exec slot_lost (AddOnDevice P2 2 false None (Some 2%nat)) in
  let w2 := exec w1 (AddOnDevice P3 3 true None (Some 3%nat)) in
  (_pending (db slot_lost) = [] ∧ unused (db slot_lost) = [] ∧
   py_min (elements (_mem_locs (db slot_lost))) = Some 0x0ff0 ∧
   find_mem_loc (db slot_lost) 0x0ff0 = None) ∧
  (outcome (add_on_device P2 2 false None (Some 2%nat)) slot_lost = Ok tt ∧
   last (logged w1) = Some (ERROR, "MEM_LOCS error: %s"%string) ∧
   wire w1 = wire slot_lost ∧ calls w1 = calls slot_lost ∧ waiting w1 = [] ∧
   entries (db w1) = entries (db slot_lost) ∧
   unused (db w1) = unused (db slot_lost) ∧
   groups (db w1) = groups (db slot_lost) ∧
   _mem_locs (db w1) = _mem_locs (db slot_lost)) ∧
  _pending (db w1) = [PendingTrue] ∧
  _pending (db w2) = [PendingTrue; PendingAdd P3 3 true None (Some 3%nat)] ∧
  wire w2 = wire slot_lost ∧ waiting w2 = [].
Proof. vm_compute. repeat split. Qed.

(** ** C10: an add needs an entry in use *)

(** C10, as stated, fails: on [empty_busy], where [entries] is empty, no
    entry matches and a delete awaits its reply, [add_on_device] returns
    normally: the request is appended to [_pending].  The assertion of
    the add fires later, out of the reply to the delete, when the
    deferred call is started. *)
Lemma C10_busy_add_returns_normally :
  let w1 := exec empty_busy (AddOnDevice P2 2 false None (Some 1%nat)) in
  entries (db empty_busy) = [] ∧
  find (db empty_busy) P2 2 false = None ∧
  length (waiting empty_busy) = 1%nat ∧
  outcome (add_on_device P2 2 false None (Some 1%nat)) empty_busy = Ok tt ∧
  _pending (db w1) = [PendingTrue; PendingAdd P2 2 false None (Some 1%nat)] ∧
  outcome (step (Reply 0 true)) w1 = Raise AssertionError.
Proof. cbv zeta. by repeat apply conj. Qed.

(** C10, amended.  When [entries] is empty, an add that is started
    ([_add_on_device], entered at once or as a deferred call) raises
    AssertionError whatever [unused] holds: nothing is sent, no handler
    is registered and the database is unchanged, so neither strategy was
    entered; so does [add_on_device] on a database with nothing pending.
    On a database with something pending [add_on_device] returns
    normally and appends the request to [_pending] as a deferred call. *)
Theorem C10_add_asserts_entries w a g ctrl d on_done :
  entries (db w) = [] →
  (let w' := after (_add_on_device a g ctrl d on_done) w in
   outcome (_add_on_device a g ctrl d on_done) w = Raise AssertionError ∧
   db w' = db w ∧ wire w' = wire w ∧ waiting w' = waiting w ∧
   calls w' = calls w) ∧
  (_pending (db w) = [] →
   let w' := after (add_on_device a g ctrl d on_done) w in
   outcome (add_on_device a g ctrl d on_done) w = Raise AssertionError ∧
   db w' = db w ∧ wire w' = wire w ∧ waiting w' = waiting w ∧
   calls w' = calls w) ∧
  (_pending (db w) ≠ [] →
   let w' := after (add_on_device a g ctrl d on_done) w in
   outcome (add_on_device a g ctrl d on_done) w = Ok tt ∧
   db w' =
     set_pending (db w)
       (_pending (db w) ++ [PendingAdd a g ctrl d on_done]) ∧
   wire w' = wire w ∧ waiting w' = waiting w ∧ calls w' = calls w).
Proof.
  intros Hent.
  pose proof (_add_on_device_empty w a g ctrl d on_done Hent) as H.
  split; [exact H|]. split.
  - intros Hp. unfold after, outcome, add_on_device, mbind, M_bind, get_self.
    simpl. rewrite Hp. exact H.
  - intros Hp. split.
    + unfold outcome, add_on_device, LOG, put_self, mbind, M_bind, get_self.
      simpl. by destruct (_pending (db w)).
    + by apply (exec_request_busy w (AddOnDevice a g ctrl d on_done)).
Qed.

(** C10, amended, on [only_free], where a freed slot exists. *)
Lemma C10_add_asserts_entries_witness :
  entries (db only_free) = [] ∧
  unused (db only_free) = [(0x0ff0, free_rec)] ∧
  outcome (_add_on_device P2 2 false None None) only_free
    = Raise AssertionError.
Proof.
  split; [reflexivity|]. split; [reflexivity|].
  apply (C10_add_asserts_entries only_free P2 2 false None None); reflexivity.
Defined.

(** * Further properties of the code *)

(** ** Lookups: [find], [find_all], [find_mem_loc], [find_group] *)

Lemma find_head_filter {A : Type} (f : A → bool) (l : list A) :
  List.find f l = head (List.filter f l).
Proof.
  induction l as [|x l IH]; simpl; [done|]. by destruct (f x).
Qed.

Lemma is_link_spec (a : Address) (g : Z) (ctrl : bool) (e : DeviceEntry.t) :
  (DeviceEntry.addr e =? a) && (DeviceEntry.group e =? g)
  && Bool.eqb (is_controller (DeviceEntry.db_flags e)) ctrl = true
  ↔ is_link a g ctrl e.
Proof.
  unfold is_link.
  rewrite !andb_true_iff, !Z.eqb_eq, Bool.eqb_true_iff. tauto.
Qed.

(** X1.  [find] answers an entry of [entries] with the peer, group and
    role asked for, the first of them in the order of the dict, which is
    the first entry [find_all] lists for the same three keys; it answers
    [None] exactly when no entry of [entries] has them. *)
Theorem find_first_match (d : Device) (a : Address) (g : Z) (ctrl : bool) :
  find d a g ctrl = head (find_all d (Some a) (Some g) (Some ctrl)) ∧
  match find d a g ctrl with
  | Some e =>
      is_link a g ctrl e ∧
      ∃ before after_,
        PyDict.values (entries d) = before ++ e :: after_ ∧
        ∀ e', e' ∈ before → ¬ is_link a g ctrl e'
  | None => ∀ e, e ∈ PyDict.values (entries d) → ¬ is_link a g ctrl e
  end.
Proof.
  split; [apply find_head_filter|].
  unfold find. induction (PyDict.values (entries d)) as [|x l IH]; simpl.
  - intros e H. by apply elem_of_nil in H.
  - destruct ((DeviceEntry.addr x =? a) && (DeviceEntry.group x =? g)
              && Bool.eqb (is_controller (DeviceEntry.db_flags x)) ctrl)
      eqn:E.
    + split; [by apply is_link_spec|].
      exists [], l. split; [done|]. intros e' H. by apply elem_of_nil in H.
    + assert (Hx : ¬ is_link a g ctrl x).
      { intros H%is_link_spec. congruence. }
      destruct (List.find _ l) as [e|].
      * destruct IH as (Hl & before & after_ & -> & Hb).
        split; [done|]. exists (x :: before), after_. split; [done|].
        intros e' [->|H]%elem_of_cons; auto.
      * intros e [->|H]%elem_of_cons; auto.
Qed.

Lemma elem_of_List_filter {A : Type} (f : A → bool) (l : list A) (x : A) :
  x ∈ List.filter f l ↔ x ∈ l ∧ f x = true.
Proof. rewrite !list_elem_of_In. apply filter_In. Qed.

Lemma List_filter_sublist {A : Type} (f : A → bool) (l : list A) :
  List.filter f l `sublist_of` l.
Proof.
  induction l as [|x l IH]; simpl; [done|].
  destruct (f x); [by apply sublist_skip | by apply sublist_cons].
Qed.

(** X2.  [find_all] lists exactly the entries of [entries] that pass
    every filter that is set, in the order of the dict and each as often
    as the dict holds it; with no filter set it lists all of them, and it
    never lists more entries than [len] counts. *)
Theorem find_all_filters (d : Device) (a : option Address) (g : option Z)
    (ctrl : option bool) :
  (∀ e, e ∈ find_all d a g ctrl ↔
        e ∈ PyDict.values (entries d) ∧
        (∀ a', a = Some a' → DeviceEntry.addr e = a') ∧
        (∀ g', g = Some g' → DeviceEntry.group e = g') ∧
        (∀ c, ctrl = Some c → is_controller (DeviceEntry.db_flags e) = c)) ∧
  find_all d a g ctrl `sublist_of` PyDict.values (entries d) ∧
  (length (find_all d a g ctrl) ≤ __len__ d)%nat ∧
  find_all d None None None = PyDict.values (entries d).
Proof.
  split; [|split; [|split]].
  - intros e. unfold find_all. rewrite elem_of_List_filter.
    rewrite !andb_true_iff.
    destruct a as [a'|], g as [g'|], ctrl as [c|];
      rewrite ?Z.eqb_eq, ?Bool.eqb_true_iff;
      (split; [intros (He & (Ha & Hg) & Hc); repeat split; try done;
                 intros ? [= <-]; done
              | intros (He & Ha & Hg & Hc); repeat split; auto]).
  - apply List_filter_sublist.
  - unfold __len__, PyDict.values.
    rewrite <- (length_map snd (entries d)).
    apply sublist_length, List_filter_sublist.
  - unfold find_all. induction (PyDict.values (entries d)) as [|x l IH];
      simpl; [done|]. simpl in IH. by rewrite IH.
Qed.

(** X3.  After [add_entry], [find_mem_loc] answers the inserted record
    at its own slot when it is in use, and what it answered before at
    every other slot; an insert that is not in use changes no answer. *)
Theorem find_mem_loc_add_entry (d : Device) (e : DeviceEntry.t) (k : Z) :
  find_mem_loc (add_entry d e) k =
  if in_use (DeviceEntry.db_flags e) && (DeviceEntry.mem_loc e =? k)
  then Some e else find_mem_loc d k.
Proof.
  unfold find_mem_loc. rewrite add_entry_entries.
  destruct (in_use (DeviceEntry.db_flags e)); simpl; [|done].
  destruct (DeviceEntry.mem_loc e =? k) eqn:E.
  - apply Z.eqb_eq in E as <-. apply PyDictFacts.get_set_eq.
  - apply Z.eqb_neq in E. by apply PyDictFacts.get_set_ne.
Qed.

(** ** Local inserts: [add_entry] *)

(** X4.  [add_entry] changes the list of no group but the one of the
    inserted record, and a record that is not a controller changes the
    list of no group at all. *)
Theorem add_entry_other_groups (d : Device) (e : DeviceEntry.t) (g : Z) :
  is_controller (DeviceEntry.db_flags e) = false ∨ g ≠ DeviceEntry.group e →
  find_group (add_entry d e) g = find_group d g.
Proof.
  intros H. unfold find_group, add_entry.
  destruct (in_use (DeviceEntry.db_flags e)),
    (is_controller (DeviceEntry.db_flags e)) eqn:Ec; simpl; try done.
  - destruct H as [?|H]; [done|]. by rewrite lookup_insert_ne.
  - destruct H as [?|H]; [done|].
    destruct (groups d !! DeviceEntry.group e); simpl; [|done].
    by rewrite lookup_insert_ne.
Qed.

(** X4 for a responder record of group 1 and for group 2. *)
Lemma add_entry_other_groups_witness :
  let resp := DeviceEntry.mk P2 1 0x0ff0 (mkDbFlags true false false) bytes3 in
  (is_controller (DeviceEntry.db_flags resp) = false ∨
   1 ≠ DeviceEntry.group resp) ∧
  find_group (add_entry (db one_rec) resp) 1 = [first_rec] ∧
  (is_controller (DeviceEntry.db_flags second_rec) = false ∨
   1 ≠ DeviceEntry.group second_rec) ∧
  find_group (add_entry (db one_rec) second_rec) 1 = [first_rec].
Proof.
  split; [by left|]. split.
  - rewrite (add_entry_other_groups (db one_rec)
               (DeviceEntry.mk P2 1 0x0ff0 (mkDbFlags true false false) bytes3)
               1 (or_introl eq_refl)).
    reflexivity.
  - assert (H : 1 ≠ DeviceEntry.group second_rec) by (vm_compute; discriminate).
    split; [by right|].
    rewrite (add_entry_other_groups (db one_rec) second_rec 1 (or_intror H)).
    reflexivity.
Defined.

Lemma py_in_app_self (e : DeviceEntry.t) (l : list DeviceEntry.t) :
  py_in e (l ++ [e]) = true.
Proof.
  unfold py_in. rewrite existsb_app. simpl.
  unfold DeviceEntry.eqb. rewrite !Z.eqb_refl. simpl. apply orb_true_r.
Qed.

Lemma set_set_same {V : Type} (d : PyDict.t V) (k : Z) (v : V) :
  PyDict.set (PyDict.set d k v) k v = PyDict.set d k v.
Proof.
  induction d as [|[k' v'] d IH]; simpl.
  - by rewrite Z.eqb_refl.
  - destruct (k' =? k) eqn:E; simpl.
    + by rewrite Z.eqb_refl.
    + by rewrite E, IH.
Qed.

(** X5.  The insert of a record that is in use is idempotent: a second
    [add_entry] of the same record, as a duplicate download message
    causes, changes nothing at all. *)
Theorem add_entry_duplicate (d : Device) (e : DeviceEntry.t) :
  in_use (DeviceEntry.db_flags e) = true →
  add_entry (add_entry d e) e = add_entry d e.
Proof.
  intros Hu. unfold add_entry. rewrite Hu.
  destruct (is_controller (DeviceEntry.db_flags e)); simpl;
    unfold set_groups, set_mem_locs, set_entries; simpl;
    rewrite set_set_same, (assoc_L (∪)), union_idemp_L.
  - rewrite lookup_insert_eq. simpl.
    destruct (py_in e (default [] (groups d !! DeviceEntry.group e))) eqn:E.
    + by rewrite E, insert_insert_eq.
    + by rewrite py_in_app_self, insert_insert_eq.
  - done.
Qed.

(** X5 on a database that already holds another record. *)
Lemma add_entry_duplicate_witness :
  in_use (DeviceEntry.db_flags ctrl_below) = true ∧
  add_entry (add_entry (db one_rec) ctrl_below) ctrl_below
  = add_entry (db one_rec) ctrl_below.
Proof.
  split; [reflexivity|].
  exact (add_entry_duplicate (db one_rec) ctrl_below eq_refl).
Defined.

(** ** Loading and saving: [from_json], [to_json] *)

Lemma fold_add_entry_store_ok (l : list DeviceEntry.t) (d : Device) :
  store_ok d → store_ok (fold_left add_entry l d).
Proof.
  revert d. induction l as [|e l IH]; intros d H; simpl; [done|].
  by apply IH, store_ok_add_entry.
Qed.

Lemma fold_add_entry_groups_ok (l : list DeviceEntry.t) (d : Device) :
  groups_ok d → groups_ok (fold_left add_entry l d).
Proof.
  revert d. induction l as [|e l IH]; intros d H; simpl; [done|].
  by apply IH, groups_ok_add_entry.
Qed.

Lemma fold_add_entry_mem_locs (l : list DeviceEntry.t) (d : Device) (k : Z) :
  k ∈ _mem_locs (fold_left add_entry l d) ↔
  k ∈ map DeviceEntry.mem_loc l ∨ k ∈ _mem_locs d.
Proof.
  revert d. induction l as [|e l IH]; intros d; simpl.
  - split; [by right|]. intros [H|H]; [by apply elem_of_nil in H | done].
  - rewrite IH, add_entry_mem_locs, elem_of_union, elem_of_singleton,
      elem_of_cons. tauto.
Qed.

Lemma fold_add_entry_other (l : list DeviceEntry.t) (d : Device) :
  addr (fold_left add_entry l d) = addr d ∧
  save_path (fold_left add_entry l d) = save_path d ∧
  delta (fold_left add_entry l d) = delta d ∧
  _pending (fold_left add_entry l d) = _pending d.
Proof.
  revert d. induction l as [|e l IH]; intros d; simpl; [done|].
  destruct (IH (add_entry d e)) as (-> & -> & -> & ->).
  apply add_entry_other.
Qed.

Lemma fold_add_entry_from (l : list DeviceEntry.t) (d : Device) :
  (∀ k e, (k, e) ∈ entries (fold_left add_entry l d) →
     (k, e) ∈ entries d ∨ e ∈ l) ∧
  (∀ k e, (k, e) ∈ unused (fold_left add_entry l d) →
     (k, e) ∈ unused d ∨ e ∈ l).
Proof.
  revert d. induction l as [|x l IH]; intros d; simpl; [by auto|].
  destruct (IH (add_entry d x)) as [IHe IHu].
  split; intros k e H.
  - destruct (IHe k e H) as [H'|H'];
      [|right; by apply elem_of_cons; right].
    rewrite add_entry_entries in H'.
    destruct (in_use (DeviceEntry.db_flags x)); [|by left].
    apply PyDictFacts.elem_of_set in H' as [[_ ->]|H']; [|by left].
    right. by apply elem_of_cons; left.
  - destruct (IHu k e H) as [H'|H'];
      [|right; by apply elem_of_cons; right].
    rewrite add_entry_unused in H'.
    destruct (in_use (DeviceEntry.db_flags x)); [by left|].
    apply PyDictFacts.elem_of_set in H' as [[_ ->]|H']; [|by left].
    right. by apply elem_of_cons; left.
Qed.

(** X6.  Whatever the document holds, [from_json] builds a database of
    the shape [store_ok] whose group lists satisfy [groups_ok], with
    nothing pending, with the address and delta of the document and the
    given path; [_mem_locs] is exactly the set of slots the document
    names; and every record is filed by its own in-use flag, not by the
    list of the document it came from. *)
Theorem from_json_shape (doc : Document) (path : option string) :
  let d := from_json doc path in
  store_ok d ∧ groups_ok d ∧ _pending d = [] ∧
  addr d = doc_address doc ∧ delta d = doc_delta doc ∧ save_path d = path ∧
  (∀ k, k ∈ _mem_locs d ↔
        k ∈ map DeviceEntry.mem_loc (doc_used doc ++ doc_unused doc)) ∧
  (∀ e, e ∈ PyDict.values (entries d) →
        e ∈ doc_used doc ++ doc_unused doc ∧
        in_use (DeviceEntry.db_flags e) = true) ∧
  (∀ e, e ∈ PyDict.values (unused d) →
        e ∈ doc_used doc ++ doc_unused doc ∧
        in_use (DeviceEntry.db_flags e) = false).
Proof.
  unfold from_json.
  set (d0 := set_delta (__init__ (doc_address doc) path) (doc_delta doc)).
  set (d1 := fold_left add_entry (doc_used doc) d0).
  assert (Hok0 : store_ok d0).
  { by apply (store_ok_ext (__init__ (doc_address doc) path));
      [apply store_ok_init|..]. }
  assert (Hok : store_ok (fold_left add_entry (doc_unused doc) d1))
    by by do 2 apply fold_add_entry_store_ok.
  destruct (fold_add_entry_other (doc_unused doc) d1) as (Ha & Hs & Hd & Hp).
  destruct (fold_add_entry_other (doc_used doc) d0) as (Ha' & Hs' & Hd' & Hp').
  fold d1 in Ha', Hs', Hd', Hp'.
  destruct (fold_add_entry_from (doc_unused doc) d1) as [Fe Fu].
  destruct (fold_add_entry_from (doc_used doc) d0) as [Fe' Fu'].
  fold d1 in Fe', Fu'.
  simpl. repeat apply conj.
  - done.
  - do 2 apply fold_add_entry_groups_ok.
    intros g e He. by apply elem_of_nil in He.
  - by rewrite Hp, Hp'.
  - by rewrite Ha, Ha'.
  - by rewrite Hd, Hd'.
  - by rewrite Hs, Hs'.
  - intros k. rewrite fold_add_entry_mem_locs. unfold d1.
    rewrite (fold_add_entry_mem_locs (doc_used doc) d0).
    rewrite map_app, elem_of_app. simpl. rewrite elem_of_empty. tauto.
  - intros e (p & -> & Hin)%list_elem_of_fmap. destruct p as [k e]. simpl.
    split; [|by apply (entries_keyed _ Hok k e)].
    rewrite elem_of_app.
    destruct (Fe k e Hin) as [H|H]; [|by right].
    destruct (Fe' k e H) as [H'|H']; [by apply elem_of_nil in H' | by left].
  - intros e (p & -> & Hin)%list_elem_of_fmap. destruct p as [k e]. simpl.
    split; [|by apply (unused_keyed _ Hok k e)].
    rewrite elem_of_app.
    destruct (Fu k e Hin) as [H|H]; [|by right].
    destruct (Fu' k e H) as [H'|H']; [by apply elem_of_nil in H' | by left].
Qed.

Lemma values_keyed (l : list DeviceEntry.t) :
  PyDict.values (map (λ e, (DeviceEntry.mem_loc e, e)) l) = l.
Proof.
  unfold PyDict.values. rewrite map_map. simpl. apply map_id.
Qed.

Lemma keys_keyed (l : list DeviceEntry.t) :
  PyDict.keys (map (λ e, (DeviceEntry.mem_loc e, e)) l)
  = map DeviceEntry.mem_loc l.
Proof. unfold PyDict.keys. by rewrite map_map. Qed.

Lemma elem_of_keyed (l : list DeviceEntry.t) (k : Z) (e : DeviceEntry.t) :
  (k, e) ∈ map (λ e, (DeviceEntry.mem_loc e, e)) l →
  DeviceEntry.mem_loc e = k ∧ e ∈ l.
Proof.
  intros (x & Hx & Hin)%list_elem_of_fmap. by injection Hx as -> ->.
Qed.

(** X7.  [to_json] is a left inverse of [from_json] on the documents a
    database writes: when the used entries of a document are in use, the
    unused ones are not, and neither list names a slot twice, the
    database built from it is written back as the same document, entry
    for entry and in the same order. *)
Theorem to_json_from_json (doc : Document) (path : option string) :
  doc_ok doc → to_json (from_json doc path) = doc.
Proof.
  intros (Hnd & Hu & Hnd' & Hu'). unfold from_json.
  set (d0 := set_delta (__init__ (doc_address doc) path) (doc_delta doc)).
  rewrite Forall_forall in Hu, Hu'.
  destruct (fold_add_entry_used
              (map (λ e, (DeviceEntry.mem_loc e, e)) (doc_used doc)) d0)
    as (H1 & H2 & H3 & H4 & _).
  { simpl. by rewrite keys_keyed. }
  { intros k e [Hk Hin]%elem_of_keyed. split; [done|].
    by apply Hu. }
  rewrite values_keyed in H1, H2, H3, H4.
  destruct (fold_add_entry_unused
              (map (λ e, (DeviceEntry.mem_loc e, e)) (doc_unused doc))
              (fold_left add_entry (doc_used doc) d0))
    as (G1 & G2 & G3 & G4 & _).
  { rewrite H2. simpl. by rewrite keys_keyed. }
  { intros k e [Hk Hin]%elem_of_keyed. split; [done|].
    by apply Hu'. }
  rewrite values_keyed in G1, G2, G3, G4.
  unfold to_json. rewrite G1, G2, G3, G4, H1, H2, H3, H4. simpl.
  rewrite !values_keyed. by destruct doc.
Qed.

(** X7 on a document with two used entries and one unused one. *)
Lemma to_json_from_json_witness :
  let doc := mkDocument 0x0a0b0c (Some 5) [first_rec; ctrl_below] [free_rec] in
  to_json (from_json doc None) = doc.
Proof.
  apply to_json_from_json. unfold doc_ok. simpl.
  repeat apply conj.
  - apply NoDup_cons. split; [|apply NoDup_singleton].
    intros H%list_elem_of_singleton. discriminate H.
  - repeat constructor.
  - apply NoDup_singleton.
  - repeat constructor.
Defined.

Lemma keyed_slots (l : PyDict.t DeviceEntry.t) (k : Z) :
  (∀ k' e, (k', e) ∈ l → DeviceEntry.mem_loc e = k') →
  k ∈ map DeviceEntry.mem_loc (PyDict.values l) ↔ k ∈ PyDict.keys l.
Proof.
  intros Hkey. unfold PyDict.values, PyDict.keys.
  rewrite map_map, !list_elem_of_fmap. split.
  - intros ([k' e] & -> & Hin). exists (k', e). split; [|done].
    simpl. by apply Hkey.
  - intros ([k' e] & -> & Hin). exists (k', e). split; [|done].
    simpl. symmetry. by apply Hkey.
Qed.

(** X8.  Saving and loading a database that the operations have built.
    For every world reached from a fresh database, the database read
    back from its document has the same entries, unused slots, delta and
    address, so [find], [find_all], [find_mem_loc] and [__len__] answer
    as before; nothing is pending in it; and its [_mem_locs] is exactly
    the set of keys of the two dicts, a subset of the [_mem_locs] it had:
    a slot that was in [_mem_locs] and in neither dict is gone. *)
Theorem reload_reachable (a0 : Address) (path path' : option string)
    (evs : list Event) :
  let d := db (run (boot a0 path) evs) in
  let d' := from_json (to_json d) path' in
  (entries d' = entries d ∧ unused d' = unused d ∧ delta d' = delta d ∧
   addr d' = addr d ∧ save_path d' = path' ∧ _pending d' = []) ∧
  (∀ a g c, find d' a g c = find d a g c) ∧
  (∀ a g c, find_all d' a g c = find_all d a g c) ∧
  (∀ k, find_mem_loc d' k = find_mem_loc d k) ∧
  __len__ d' = __len__ d ∧
  (∀ k, k ∈ _mem_locs d' ↔
        k ∈ PyDict.keys (entries d) ∨ k ∈ PyDict.keys (unused d)) ∧
  _mem_locs d' ⊆ _mem_locs d.
Proof.
  simpl. set (d := db (run (boot a0 path) evs)).
  assert (Hok : store_ok d) by apply inv_run, inv_boot.
  destruct (round_trip_keeps_dicts d path' Hok) as (He & Hu & Hd & Ha & Hs).
  simpl in He, Hu, Hd, Ha, Hs.
  assert (Hm : ∀ k, k ∈ _mem_locs (from_json (to_json d) path') ↔
             k ∈ PyDict.keys (entries d) ∨ k ∈ PyDict.keys (unused d)).
  { intros k. unfold from_json, to_json. simpl.
    rewrite !fold_add_entry_mem_locs. simpl. rewrite elem_of_empty.
    rewrite (keyed_slots (entries d))
      by (intros k' e H; by apply (entries_keyed _ Hok)).
    rewrite (keyed_slots (unused d))
      by (intros k' e H; by apply (unused_keyed _ Hok)).
    tauto. }
  repeat apply conj; try done.
  - unfold from_json.
    destruct (fold_add_entry_other (doc_unused (to_json d))
                (fold_left add_entry (doc_used (to_json d))
                   (set_delta (__init__ (doc_address (to_json d)) path')
                      (doc_delta (to_json d))))) as (_ & _ & _ & ->).
    by destruct (fold_add_entry_other (doc_used (to_json d))
                   (set_delta (__init__ (doc_address (to_json d)) path')
                      (doc_delta (to_json d)))) as (_ & _ & _ & ->).
  - intros a g c. unfold find. by rewrite He.
  - intros a g c. unfold find_all. by rewrite He.
  - intros k. unfold find_mem_loc. by rewrite He.
  - unfold __len__. by rewrite He.
  - intros k Hk. apply Hm in Hk. by apply (mem_locs_superset _ Hok).
Qed.

(** X9.  The shape of every database the operations build.  In every
    world reached from a fresh database: the keys of each dict are
    unique, every record is stored under its own slot address in the
    dict its in-use flag names, and [_mem_locs] holds the keys of both;
    so the record [find_mem_loc] answers for a slot has that slot, the
    record [find] answers is in use and is the one found at its slot,
    and every member of a group list is a controller record of that
    group whose slot holds an entry. *)
Theorem reachable_store (a0 : Address) (path : option string)
    (evs : list Event) :
  let d := db (run (boot a0 path) evs) in
  store_ok d ∧ groups_ok d ∧
  (∀ k e, find_mem_loc d k = Some e →
     DeviceEntry.mem_loc e = k ∧ in_use (DeviceEntry.db_flags e) = true) ∧
  (∀ a g c e, find d a g c = Some e →
     in_use (DeviceEntry.db_flags e) = true ∧
     find_mem_loc d (DeviceEntry.mem_loc e) = Some e) ∧
  (∀ g e, e ∈ find_group d g →
     is_Some (find_mem_loc d (DeviceEntry.mem_loc e))).
Proof.
  simpl. set (d := db (run (boot a0 path) evs)).
  assert (Hok : store_ok d) by apply inv_run, inv_boot.
  assert (Hg : groups_ok d) by apply groups_ok_run.
  repeat apply conj; try done.
  - intros k e H. by apply (entries_keyed _ Hok), PyDictFacts.get_Some_elem_of.
  - intros a g c e H. apply find_some in H as [Hin _].
    apply list_elem_of_In, PyDictFacts.elem_of_values in Hin as [k Hin].
    destruct (entries_keyed _ Hok k e Hin) as [Hk Hu]. split; [done|].
    rewrite Hk. apply elem_of_get; [apply (entries_wf _ Hok) | done].
  - intros g e H. destruct (Hg g e H) as (_ & _ & _ & Hk).
    by apply get_is_Some.
Qed.

(** ** The delete exchange: [delete_on_device], [_delete_on_device] *)

Lemma exec_delete_idle w entry on_done :
  _pending (db w) = [] →
  outcome (delete_on_device entry on_done) w = Ok tt ∧
  exec w (DeleteOnDevice entry on_done) =
  mkWorld (set_pending (db w) [PendingTrue])
    (wire w ++ [mkMsg (addr (db w)) 0x2f 0x00
                  (DeviceEntry.set_in_use entry false)])
    (waiting w ++ [mkHandler (DeviceEntry.set_in_use entry false)
                     (delete_done_cb on_done) []])
    (calls w) (logged w).
Proof.
  intros Hp. unfold_m. simpl. rewrite Hp. simpl. by rewrite Hp.
Qed.

(** X10.  The delete exchange on an idle database, for every record,
    whether the database holds it or not.  The request sends one write,
    of a copy of the record with the in-use flag cleared, and touches
    nothing of the database but [_pending]; the acknowledgment commits
    that copy with [add_entry] and reports success with it; a refusal
    leaves the database exactly as it was before the request and reports
    failure with no entry. *)
Theorem delete_exchange w entry on_done :
  _pending (db w) = [] → waiting w = [] →
  let freed := DeviceEntry.set_in_use entry false in
  let w1 := exec w (DeleteOnDevice entry on_done) in
  let report ok msg e :=
    match on_done with Some f => [mkCall f ok msg e] | None => [] end in
  (outcome (delete_on_device entry on_done) w = Ok tt ∧
   db w1 = set_pending (db w) [PendingTrue] ∧
   wire w1 = wire w ++ [mkMsg (addr (db w)) 0x2f 0x00 freed] ∧
   waiting w1 = [mkHandler freed (delete_done_cb on_done) []] ∧
   calls w1 = calls w) ∧
  (let w2 := exec w1 (Reply 0 true) in
   db w2 = add_entry (db w) freed ∧ wire w2 = wire w1 ∧ waiting w2 = [] ∧
   calls w2 =
     calls w ++ report true (HandlerText true)
                  (Some freed)) ∧
  (let w2 := exec w1 (Reply 0 false) in
   db w2 = db w ∧ wire w2 = wire w1 ∧ waiting w2 = [] ∧
   calls w2 =
     calls w ++ report false (HandlerText false) None).
Proof.
  intros Hp Hw. simpl.
  destruct (exec_delete_idle w entry on_done Hp) as [Hout Hw1].
  rewrite Hw1, Hw. simpl.
  set (freed := DeviceEntry.set_in_use entry false).
  set (h := mkHandler freed (delete_done_cb on_done) []).
  set (w1 := mkWorld _ _ [h] _ _).
  split; [done|]. split.
  - rewrite (exec_reply_ack_final w1 h eq_refl eq_refl).
    destruct (done_cb_last
                (mkWorld (add_entry (db w1) (h_entry h)) (wire w1) []
                   (calls w1) (logged w1))
                (h_on_done h) true (HandlerText true)
                (Some (h_entry h)) PendingTrue) as (H1 & H2 & H3 & H4).
    { simpl. by rewrite add_entry_set_pending. }
    rewrite H1, H2, H3, H4. simpl. repeat apply conj; try done.
    rewrite add_entry_set_pending, set_pending_twice.
    apply set_pending_same.
    by destruct (add_entry_other (db w) freed) as (_ & _ & _ & ->).
  - rewrite (exec_reply_nak w1 h eq_refl).
    destruct (done_cb_last
                (mkWorld (db w1) (wire w1) [] (calls w1) (logged w1))
                (h_on_done h) false (HandlerText false)
                None PendingTrue) as (H1 & H2 & H3 & H4); [done|].
    rewrite H1, H2, H3, H4. simpl. repeat apply conj; try done.
    rewrite set_pending_twice. by apply set_pending_same.
Qed.

(** X10 on [one_rec], for a record the database does not hold. *)
Lemma delete_exchange_witness :
  _pending (db one_rec) = [] ∧ waiting one_rec = [] ∧
  let w1 := exec one_rec (DeleteOnDevice second_rec (Some 4%nat)) in
  db (exec w1 (Reply 0 false)) = db one_rec ∧
  db (exec w1 (Reply 0 true)) =
    add_entry (db one_rec) (DeviceEntry.set_in_use second_rec false).
Proof.
  split; [reflexivity|]. split; [reflexivity|].
  destruct (delete_exchange one_rec second_rec (Some 4%nat) eq_refl eq_refl)
    as (_ & (H1 & _) & (H2 & _)).
  split; [exact H2 | exact H1].
Defined.

(** ** Refused writes of an add *)

(** X11.  The growth strategy when the device refuses.  If the write of
    the new record is refused, the database is exactly what it was
    before the request.  If it is acknowledged and the followup that
    clears the last-record flag of the previous last record is refused,
    the new record has been committed all the same and the previous last
    record is stored as before: the database is the old one plus the new
    record, yet [on_done] is told success=false with no entry. *)
Theorem growth_refused w a g ctrl d on_done lowest last_entry :
  store_ok (db w) → _pending (db w) = [] → waiting w = [] →
  find (db w) a g ctrl = None →
  entries (db w) ≠ [] →
  unused (db w) = [] →
  py_min (elements (_mem_locs (db w))) = Some lowest →
  find_mem_loc (db w) lowest = Some last_entry →
  let entry :=
    DeviceEntry.mk a g (lowest - 0x08) (mkDbFlags true ctrl true)
      (data_or_zero d) in
  let report :=
    match on_done with
    | Some f => [mkCall f false (HandlerText false) None]
    | None => []
    end in
  let w1 := exec w (AddOnDevice a g ctrl d on_done) in
  (let w2 := exec w1 (Reply 0 false) in
   db w2 = db w ∧ wire w2 = wire w1 ∧ waiting w2 = [] ∧
   calls w2 = calls w ++ report) ∧
  (let w3 := exec (exec w1 (Reply 0 true)) (Reply 0 false) in
   db w3 = add_entry (db w) entry ∧
   find_mem_loc (db w3) (lowest - 0x08) = Some entry ∧
   find_mem_loc (db w3) lowest = Some last_entry ∧
   length (wire w3) = (length (wire w) + 2)%nat ∧ waiting w3 = [] ∧
   calls w3 = calls w ++ report).
Proof.
  intros Hok Hp Hw Hfind Hent Hunused Hmin Hlast. simpl.
  rewrite (exec_add_idle w a g ctrl d on_done Hp).
  destruct (_add_on_device_grow w a g ctrl d on_done lowest last_entry
              Hfind Hent Hunused Hmin Hlast) as (_ & Hdb & Hwire & Hwait & Hc).
  assert (Hloc : DeviceEntry.mem_loc last_entry = lowest).
  { by apply (entries_keyed _ Hok lowest last_entry),
      PyDictFacts.get_Some_elem_of. }
  simpl in Hdb, Hwire, Hwait, Hc. rewrite Hloc in Hwire, Hwait.
  rewrite Hp in Hdb. rewrite Hw in Hwait. simpl in Hwait.
  set (w1 := after (_add_on_device a g ctrl d on_done) w) in *.
  set (entry := DeviceEntry.mk a g (lowest - 8) (mkDbFlags true ctrl true)
                  (data_or_zero d)) in *.
  set (new_last := DeviceEntry.set_is_last_rec last_entry false) in *.
  split.
  - rewrite (exec_reply_nak w1 _ Hwait).
    destruct (done_cb_last
                (mkWorld (db w1) (wire w1) [] (calls w1) (logged w1))
                (add_done_cb on_done) false (HandlerText false)
                None PendingTrue) as (H1 & H2 & H3 & H4).
    { simpl. by rewrite Hdb. }
    simpl in *. rewrite H1, H2, H3, H4, Hdb, Hc. repeat apply conj; try done.
    rewrite set_pending_twice. by apply set_pending_same.
  - rewrite (exec_reply_ack_next w1 _ _ _ _ Hwait eq_refl). simpl.
    set (w2 := mkWorld _ _ _ _ _).
    rewrite (exec_reply_nak w2 _ eq_refl).
    destruct (done_cb_last
                (mkWorld (db w2) (wire w2) [] (calls w2) (logged w2))
                (add_done_cb on_done) false (HandlerText false)
                None PendingTrue) as (H1 & H2 & H3 & H4).
    { simpl. rewrite Hdb. by rewrite add_entry_set_pending. }
    simpl in *. rewrite H1, H2, H3, H4, Hdb, Hc, Hwire.
    assert (Hdb3 : set_pending (add_entry (set_pending (db w) [PendingTrue])
                                 entry) []
                   = add_entry (db w) entry).
    { rewrite add_entry_set_pending, set_pending_twice.
      apply set_pending_same.
      by destruct (add_entry_other (db w) entry) as (_ & _ & _ & ->). }
    rewrite Hdb3. repeat apply conj; try done.
    + unfold find_mem_loc. rewrite add_entry_entries. simpl.
      apply PyDictFacts.get_set_eq.
    + unfold find_mem_loc. rewrite add_entry_entries. simpl.
      rewrite PyDictFacts.get_set_ne by lia. exact Hlast.
    + rewrite !length_app. simpl. lia.
Qed.

(** X11 on [one_rec]: after the refused followup the database holds the
    record at 0x0FF0 and [first_rec], still flagged as last record. *)
Lemma growth_refused_witness :
  let w1 := exec one_rec (AddOnDevice P2 2 true None (Some 1%nat)) in
  let w3 := exec (exec w1 (Reply 0 true)) (Reply 0 false) in
  store_ok (db one_rec) ∧
  db (exec w1 (Reply 0 false)) = db one_rec ∧
  find_mem_loc (db w3) 0x0ff8 = Some first_rec ∧
  calls w3 = [mkCall 1%nat false (HandlerText false) None].
Proof.
  assert (Hok : store_ok (db one_rec)).
  { apply store_ok_add_entry, store_ok_init. }
  destruct (growth_refused one_rec P2 2 true None (Some 1%nat) 0x0ff8
              first_rec Hok eq_refl eq_refl eq_refl)
    as ((H1 & _) & (_ & _ & H2 & _ & _ & H3)); try done.
Defined.

(** X12.  The reuse strategy when the device refuses.  The slot taken
    out of [unused] as the request was issued is not put back: after the
    refusal nothing is pending, the database differs from the one before
    the request in [unused] alone, and the slot is in [_mem_locs] and no
    key of [unused]. *)
Theorem reuse_refused_loses_slot w a g ctrl d on_done k :
  store_ok (db w) → _pending (db w) = [] → waiting w = [] →
  find (db w) a g ctrl = None →
  entries (db w) ≠ [] →
  py_max (PyDict.keys (unused (db w))) = Some k →
  let w2 := run w [AddOnDevice a g ctrl d on_done; Reply 0 false] in
  db w2 = set_unused (db w) (PyDict.remove (unused (db w)) k) ∧
  k ∈ _mem_locs (db w2) ∧ (k ∉ PyDict.keys (unused (db w2))) ∧
  (∀ k', k' ∈ PyDict.keys (unused (db w)) → k' ≤ k) ∧
  wire w2 = wire (exec w (AddOnDevice a g ctrl d on_done)) ∧
  waiting w2 = [] ∧
  calls w2 =
    calls w ++ match on_done with
               | Some f =>
                   [mkCall f false (HandlerText false) None]
               | None => []
               end.
Proof.
  intros Hok Hp Hw Hfind Hent Hmax. simpl.
  destruct (py_max_spec _ _ Hmax) as [Hin Hle].
  destruct (get_is_Some _ _ Hin) as [u Hget].
  rewrite (exec_add_idle w a g ctrl d on_done Hp).
  destruct (_add_on_device_reuse w a g ctrl d on_done k u
              Hfind Hent Hmax Hget) as (_ & Hdb & Hwire & Hwait & Hc).
  simpl in Hdb, Hwire, Hwait, Hc.
  rewrite Hp in Hdb. rewrite Hw in Hwait. simpl in Hwait.
  set (w1 := after (_add_on_device a g ctrl d on_done) w) in *.
  rewrite (exec_reply_nak w1 _ Hwait).
  destruct (done_cb_last
              (mkWorld (db w1) (wire w1) [] (calls w1) (logged w1))
              (add_done_cb on_done) false (HandlerText false)
              None PendingTrue) as (H1 & H2 & H3 & H4).
  { simpl. by rewrite Hdb. }
  simpl in *. rewrite H1, H2, H3, H4, Hdb, Hc.
  repeat apply conj; try done.
  - rewrite set_pending_twice. by apply set_pending_same.
  - simpl. apply (mem_locs_superset _ Hok). by right.
  - simpl. apply keys_remove_wf. exact (unused_wf _ Hok).
Qed.

(** X12 on [one_free]: slot 0x0FF0 is lost. *)
Lemma reuse_refused_loses_slot_witness :
  let w2 := run one_free [AddOnDevice P2 2 false None None; Reply 0 false] in
  store_ok (db one_free) ∧
  py_max (PyDict.keys (unused (db one_free))) = Some 0x0ff0 ∧
  0x0ff0 ∈ _mem_locs (db w2) ∧ 0x0ff0 ∉ PyDict.keys (unused (db w2)).
Proof.
  assert (Hok : store_ok (db one_free)).
  { do 2 apply store_ok_add_entry. apply store_ok_init. }
  destruct (reuse_refused_loses_slot one_free P2 2 false None None 0x0ff0
              Hok eq_refl eq_refl eq_refl)
    as (_ & H1 & H2 & _); try done.
Defined.

(** ** The queue of deferred calls *)

(** X13.  Requests that arrive while [_pending] is not empty are
    appended to it as deferred calls in the order of their arrival,
    whatever their number; none of them sends a write, registers a
    handler or calls back. *)
Theorem busy_requests_queue_in_order (w : World) (reqs : list Event) :
  _pending (db w) ≠ [] →
  Forall (λ r, is_Some (continuation r)) reqs →
  let w' := run w reqs in
  db w' = set_pending (db w) (_pending (db w) ++ omap continuation reqs) ∧
  wire w' = wire w ∧ waiting w' = waiting w ∧ calls w' = calls w.
Proof.
  revert w. induction reqs as [|r reqs IH]; intros w Hp Hall; simpl.
  - rewrite app_nil_r. split; [|done]. symmetry. by apply set_pending_same.
  - apply Forall_cons in Hall as [[c Hc] Hall]. rewrite Hc.
    destruct (exec_request_busy w r c Hc Hp) as (Hdb & Hwire & Hwait & Hcalls).
    simpl in Hdb, Hwire, Hwait, Hcalls.
    destruct (IH (exec w r)) as (Hdb' & Hwire' & Hwait' & Hcalls').
    + rewrite Hdb. simpl. by destruct (_pending (db w)).
    + done.
    + simpl in *. rewrite Hdb', Hwire', Hwait', Hcalls', Hdb. simpl.
      by rewrite <- app_assoc.
Qed.

(** X13 for an add and a delete that arrive while the first add awaits
    its reply. *)
Lemma busy_requests_queue_in_order_witness :
  let w := exec one_rec first_add in
  let w' := run w [second_add; DeleteOnDevice first_rec None] in
  _pending (db w) ≠ [] ∧
  _pending (db w') =
    [PendingTrue; PendingAdd P3 3 false None (Some 2%nat);
     PendingDelete first_rec None] ∧
  wire w' = wire w.
Proof.
  assert (Hp : _pending (db (exec one_rec first_add)) ≠ []) by done.
  split; [exact Hp|].
  destruct (busy_requests_queue_in_order (exec one_rec first_add)
              [second_add; DeleteOnDevice first_rec None] Hp)
    as (Hdb & Hwire & _).
  - repeat constructor; by eexists.
  - simpl in *. split; [by rewrite Hdb | exact Hwire].
Defined.

Lemma invoke_calls (w : World) (q : Pending) :
  calls (after (invoke q) w) = calls w ++ answered (db w) q.
Proof.
  destruct q as [|a g ctrl d on_done|entry on_done]; simpl.
  - by rewrite app_nil_r.
  - unfold_m. simpl. destruct (find (db w) a g ctrl) eqn:Ef; simpl.
    { destruct on_done; simpl; by rewrite ?app_nil_r. }
    assert (Hnil : match on_done with Some _ | None => [] end = @nil Call)
      by by destruct on_done.
    rewrite Hnil, app_nil_r.
    destruct (0 <? length (entries (db w)))%nat; simpl; [|done].
    destruct (unused (db w)) eqn:Eu; simpl.
    + destruct (py_min _); simpl; [|done].
      destruct (find_mem_loc _ _); simpl;
        by destruct (_pending (db w)).
    + destruct (py_max _); simpl; [|done].
      destruct (PyDict.get _ _); simpl; [|done].
      by destruct (_pending (db w)).
  - unfold_m. simpl. rewrite app_nil_r. by destruct (_pending (db w)).
Qed.

Lemma done_cb_next w cb success msg entry p q rest :
  _pending (db w) = p :: q :: rest →
  ∃ lg,
    done_cb cb success msg entry w =
    invoke q
      (mkWorld (set_pending (db w) (q :: rest)) (wire w) (waiting w)
         (calls w) lg).
Proof.
  intros Hp.
  unfold done_cb, LOG, put_self, get_self, mbind, M_bind, mret, M_ret.
  destruct cb; simpl; rewrite Hp; simpl; by eexists.
Qed.

(** X14.  Which callback a completed exchange calls.  [done_cb] removes
    the head of [_pending].  If nothing else is pending it calls the
    [on_done] of the request that has completed, with the outcome of the
    exchange.  If something else is pending it starts the next deferred
    call instead, and the [on_done] of the request that has completed is
    not called at all: the only call made is the one the deferred call
    makes by itself, when it is an add of a link that is already there,
    and the deferred call stays at the head of [_pending]. *)
Theorem done_cb_calls_on_done_only_when_last w cb success msg entry p rest :
  _pending (db w) = p :: rest →
  let w' := after (done_cb cb success msg entry) w in
  match rest with
  | [] =>
      _pending (db w') = [] ∧ wire w' = wire w ∧
      calls w' =
        calls w ++ match captured cb with
                   | Some f => [mkCall f success msg entry]
                   | None => []
                   end
  | q :: _ =>
      _pending (db w') = rest ∧ calls w' = calls w ++ answered (db w) q
  end.
Proof.
  intros Hp. cbv zeta. destruct rest as [|q rest].
  - destruct (done_cb_last w cb success msg entry p Hp) as (H1 & H2 & _ & H3).
    simpl in H1, H2, H3. by rewrite H1, H2, H3.
  - destruct (done_cb_next w cb success msg entry p q rest Hp) as [lg Hn].
    unfold after. rewrite Hn. set (w1 := mkWorld _ _ _ _ _).
    split.
    + destruct (invoke_started w1 q) as (_ & _ & _ & _ & _ & _ & Hkeep).
      by apply Hkeep.
    + exact (invoke_calls w1 q).
Qed.

(** X14 when the first of two adds is acknowledged: the second add is
    started and the callback of the first add is never called. *)
Lemma done_cb_calls_on_done_only_when_last_witness :
  let w := run one_rec [first_add; second_add; Reply 0 true] in
  let h := mkHandler (DeviceEntry.set_is_last_rec first_rec false)
             (add_done_cb (Some 1%nat)) [] in
  let w' := exec w (Reply 0 true) in
  waiting w = [h] ∧
  _pending (db w) = [PendingTrue; PendingAdd P3 3 false None (Some 2%nat)] ∧
  _pending (db w') = [PendingAdd P3 3 false None (Some 2%nat)] ∧
  calls w' = [].
Proof.
  split; [reflexivity|]. split; [reflexivity|].
  set (w := run one_rec [first_add; second_add; Reply 0 true]).
  set (h := mkHandler (DeviceEntry.set_is_last_rec first_rec false)
              (add_done_cb (Some 1%nat)) []).
  rewrite (exec_reply_ack_final w h eq_refl eq_refl).
  exact (done_cb_calls_on_done_only_when_last
           (mkWorld (add_entry (db w) (h_entry h)) (wire w) [] (calls w)
              (logged w))
           (add_done_cb (Some 1%nat)) true (HandlerText true)
           (Some (h_entry h)) PendingTrue
           [PendingAdd P3 3 false None (Some 2%nat)] eq_refl).
Defined.

Lemma stalled_exec (w : World) (ev : Event) :
  waiting w = [] → _pending (db w) ≠ [] →
  wire (exec w ev) = wire w ∧ waiting (exec w ev) = [] ∧
  calls (exec w ev) = calls w ∧ _pending (db (exec w ev)) ≠ [].
Proof.
  intros Hw Hp.
  destruct ev as [a g ctrl d on_done|entry on_done|i ack|entry|dl|path|].
  - destruct (exec_request_busy w (AddOnDevice a g ctrl d on_done) _
                eq_refl Hp) as (Hdb & -> & -> & ->).
    rewrite Hdb. simpl. repeat apply conj; try done.
    by destruct (_pending (db w)).
  - destruct (exec_request_busy w (DeleteOnDevice entry on_done) _
                eq_refl Hp) as (Hdb & -> & -> & ->).
    rewrite Hdb. simpl. repeat apply conj; try done.
    by destruct (_pending (db w)).
  - unfold exec, step. rewrite Hw. simpl. by rewrite Hw.
  - unfold exec, step, mbind, M_bind, get_self, put_self. simpl.
    by destruct (add_entry_other (db w) entry) as (_ & _ & _ & ->).
  - done.
  - done.
  - done.
Qed.

(** X15.  A database on which something is pending while no exchange
    awaits a reply never works again.  Whatever operations and replies
    follow, no write is sent, no handler is registered and no callback
    is called: every request is put behind the pending call, a reply
    finds no handler, and neither [add_entry] nor [clear] touches
    [_pending]. *)
Theorem stalled_queue_never_recovers (w : World) (evs : list Event) :
  waiting w = [] → _pending (db w) ≠ [] →
  let w' := run w evs in
  wire w' = wire w ∧ waiting w' = [] ∧ calls w' = calls w ∧
  _pending (db w') ≠ [].
Proof.
  revert w. induction evs as [|ev evs IH]; intros w Hw Hp; simpl; [done|].
  destruct (stalled_exec w ev Hw Hp) as (H1 & H2 & H3 & H4).
  destruct (IH (exec w ev) H2 H4) as (G1 & G2 & G3 & G4). simpl in *.
  by rewrite G1, G2, G3, H1, H3.
Qed.

(** X15 on the database left by the aborted growth: three requests, a
    reply and a clear later nothing has been sent. *)
Lemma stalled_queue_never_recovers_witness :
  let w := exec slot_lost (AddOnDevice P2 2 false None (Some 2%nat)) in
  let w' := run w [first_add; Reply 0 true; Clear; second_add;
                   DeleteOnDevice first_rec None] in
  waiting w = [] ∧ _pending (db w) ≠ [] ∧
  wire w' = wire w ∧ calls w' = calls w.
Proof.
  assert (Hp : _pending (db (exec slot_lost
                               (AddOnDevice P2 2 false None (Some 2%nat))))
               ≠ []) by done.
  split; [reflexivity|]. split; [exact Hp|].
  destruct (stalled_queue_never_recovers
              (exec slot_lost (AddOnDevice P2 2 false None (Some 2%nat)))
              [first_add; Reply 0 true; Clear; second_add;
               DeleteOnDevice first_rec None] eq_refl Hp)
    as (H1 & _ & H2 & _).
  split; [exact H1 | exact H2].
Defined.

(** X16.  A deferred add of a link that is there by the time its turn
    comes stalls the queue.  When the reply that completes the running
    exchange arrives and the next deferred call is such an add, the add
    answers its own [on_done] with "Entry already exists" and returns
    without sending anything; it stays at the head of [_pending], no
    exchange awaits a reply, and the [on_done] of the completed request
    is not called. *)
Theorem deferred_duplicate_add_stalls w h ack p a g ctrl d on_done rest e :
  waiting w = [h] → (ack = true → h_next h = []) →
  _pending (db w) = p :: PendingAdd a g ctrl d on_done :: rest →
  find (if ack then add_entry (db w) (h_entry h) else db w) a g ctrl
    = Some e →
  let w' := exec w (Reply 0 ack) in
  waiting w' = [] ∧ wire w' = wire w ∧
  _pending (db w') = PendingAdd a g ctrl d on_done :: rest ∧
  calls w' =
    calls w ++ match on_done with
               | Some f => [mkCall f true "Entry already exists" (Some e)]
               | None => []
               end.
Proof.
  intros Hw Hn Hp Hfind. simpl.
  destruct (exec_reply_completes w h ack p _ rest Hw Hn Hp) as [lg ->].
  set (w0 := mkWorld _ _ _ _ _).
  destruct (_add_on_device_exists w0 a g ctrl d on_done e)
    as (_ & Hdb & Hwire & Hwait & Hcalls).
  { unfold w0, find. simpl. exact Hfind. }
  simpl in *. by rewrite Hdb, Hwire, Hwait, Hcalls.
Qed.

(** X16 for the same add issued twice in a row: once the first is
    committed, the second answers "Entry already exists" and stays
    pending with nothing on the wire behind it. *)
Lemma deferred_duplicate_add_stalls_witness :
  let again := AddOnDevice P2 2 true None (Some 2%nat) in
  let w := run one_rec [first_add; again; Reply 0 true] in
  let w' := exec w (Reply 0 true) in
  length (waiting w) = 1%nat ∧
  waiting w' = [] ∧ wire w' = wire w ∧
  _pending (db w') = [PendingAdd P2 2 true None (Some 2%nat)] ∧
  length (calls w') = 1%nat.
Proof.
  cbv zeta.
  set (w := run one_rec [first_add; AddOnDevice P2 2 true None (Some 2%nat);
                         Reply 0 true]).
  destruct (deferred_duplicate_add_stalls w
              (mkHandler (DeviceEntry.set_is_last_rec first_rec false)
                 (add_done_cb (Some 1%nat)) [])
              true PendingTrue P2 2 true None (Some 2%nat) []
              (DeviceEntry.mk P2 2 0x0ff0 (mkDbFlags true true true)
                 [x01; x02; x03]))
    as (H1 & H2 & H3 & H4); try reflexivity.
  split; [reflexivity|].
  repeat apply conj; [exact H1 | exact H2 | exact H3 |].
  rewrite H4. reflexivity.
Defined.

(** ** What an operation can raise *)

Lemma invoke_pending (w : World) (q : Pending) :
  _pending (db (after (invoke q) w)) = _pending (db w) ∨
  (_pending (db w) = [] ∧ _pending (db (after (invoke q) w)) = [PendingTrue]).
Proof.
  destruct (_pending (db w)) as [|p0 l] eqn:Ep.
  - destruct q as [|a g ctrl d on_done|entry on_done]; simpl.
    + left. unfold after, raise. simpl. done.
    + unfold_m. simpl. destruct (find (db w) a g ctrl); simpl.
      { left. by destruct on_done. }
      destruct (0 <? length (entries (db w)))%nat; simpl; [|by left].
      destruct (unused (db w)) eqn:Eu; simpl.
      * destruct (py_min _); simpl; [|by left].
        destruct (find_mem_loc _ _); simpl; rewrite Ep; simpl; by right.
      * destruct (py_max _); simpl; [|by left].
        destruct (PyDict.get _ _); simpl; [|by left].
        rewrite Ep. simpl. by right.
    + unfold_m. simpl. rewrite Ep. simpl. by right.
  - left. rewrite <- Ep.
    destruct (invoke_started w q) as (_ & _ & _ & _ & _ & _ & Hkeep).
    apply Hkeep. by rewrite Ep.
Qed.

Lemma marker_first_invoke (w : World) (q : Pending) :
  marker_first w → marker_first (after (invoke q) w).
Proof.
  unfold marker_first. intros H.
  destruct (invoke_pending w q) as [->|[_ ->]]; [done | by constructor].
Qed.

Lemma marker_first_done_cb w cb success msg entry :
  marker_first w → marker_first (after (done_cb cb success msg entry) w).
Proof.
  intros H. destruct (_pending (db w)) as [|p [|q rest]] eqn:Ep.
  - unfold marker_first, after, done_cb, LOG, put_self, get_self, raise,
      mbind, M_bind, mret, M_ret.
    destruct cb; simpl; rewrite Ep; simpl; rewrite Ep; by constructor.
  - destruct (done_cb_last w cb success msg entry p Ep) as (Hdb & _).
    unfold marker_first. simpl in Hdb. rewrite Hdb. by constructor.
  - destruct (done_cb_next w cb success msg entry p q rest Ep) as [lg Hn].
    unfold after. rewrite Hn. apply marker_first_invoke.
    unfold marker_first in *. rewrite Ep in H. simpl in *.
    by apply Forall_cons in H as [_ H].
Qed.

Lemma marker_first_exec (w : World) (ev : Event) :
  marker_first w → marker_first (exec w ev).
Proof.
  intros H.
  assert (Hreq : ∀ req c, continuation req = Some c → c ≠ PendingTrue →
            marker_first (exec w req)).
  { intros req c Hc Hne. destruct (_pending (db w)) as [|p l] eqn:Ep.
    - rewrite (exec_request_idle w req c Hc Ep). by apply marker_first_invoke.
    - destruct (exec_request_busy w req c Hc) as (Hdb & _);
        [by rewrite Ep|].
      unfold marker_first in *. simpl in Hdb. rewrite Hdb, Ep. simpl.
      rewrite Ep in H. simpl in H. apply Forall_app. split; [done|].
      by repeat constructor. }
  destruct ev as [a g ctrl d on_done|entry on_done|i ack|entry|dl|path|].
  - by eapply Hreq.
  - by eapply Hreq.
  - unfold exec, step. destruct (waiting w !! i) as [h|]; [|done].
    set (w0 := mkWorld _ _ _ _ _).
    assert (H0 : marker_first w0) by done.
    unfold msg_received. destruct ack; [|by apply marker_first_done_cb].
    unfold mbind, M_bind, get_self, put_self. simpl.
    set (w1 := mkWorld (add_entry _ _) _ _ _ _).
    assert (H1 : marker_first w1).
    { unfold marker_first. simpl.
      by destruct (add_entry_other (db w) (h_entry h)) as (_ & _ & _ & ->). }
    destruct (h_next h) as [|[msg e] rest]; [by apply marker_first_done_cb|].
    exact H1.
  - unfold marker_first, exec, step, mbind, M_bind, get_self, put_self. simpl.
    by destruct (add_entry_other (db w) entry) as (_ & _ & _ & ->).
  - done.
  - done.
  - done.
Qed.

Lemma mem_locs_nonempty (d : Device) :
  store_ok d → entries d ≠ [] → is_Some (py_min (elements (_mem_locs d))).
Proof.
  intros Hok Hent. destruct (entries d) as [|[k e] l] eqn:E; [done|].
  assert (Hk : k ∈ _mem_locs d).
  { apply (mem_locs_superset _ Hok). left. rewrite E.
    unfold PyDict.keys. simpl. by apply elem_of_cons; left. }
  apply elem_of_elements in Hk.
  destruct (elements (_mem_locs d)); [by apply elem_of_nil in Hk|].
  by eexists.
Qed.

Lemma _add_on_device_outcome w a g ctrl d on_done :
  store_ok (db w) →
  let w' := after (_add_on_device a g ctrl d on_done) w in
  outcome (_add_on_device a g ctrl d on_done) w = Ok tt ∨
  (outcome (_add_on_device a g ctrl d on_done) w = Raise AssertionError ∧
   entries (db w) = [] ∧
   db w' = db w ∧ wire w' = wire w ∧ waiting w' = waiting w ∧
   calls w' = calls w).
Proof.
  intros Hok. simpl.
  destruct (find (db w) a g ctrl) as [e|] eqn:Hfind.
  { left. by destruct (_add_on_device_exists w a g ctrl d on_done e Hfind). }
  destruct (entries (db w)) as [|x l] eqn:Hent.
  { right. destruct (_add_on_device_empty w a g ctrl d on_done Hent)
      as (? & ? & ? & ? & ?). by repeat apply conj. }
  assert (Hne : entries (db w) ≠ []) by by rewrite Hent.
  left. destruct (unused (db w)) as [|y u] eqn:Hun.
  - destruct (mem_locs_nonempty (db w) Hok Hne) as [lowest Hmin].
    destruct (find_mem_loc (db w) lowest) as [last_entry|] eqn:Hlast.
    + by destruct (_add_on_device_grow w a g ctrl d on_done lowest last_entry
                     Hfind Hne Hun Hmin Hlast).
    + by destruct (_add_on_device_abort w a g ctrl d on_done lowest
                     Hfind Hne Hun Hmin Hlast).
  - destruct (py_max_is_Some (PyDict.keys (unused (db w)))) as [k Hmax].
    { by rewrite Hun. }
    destruct (py_max_spec _ _ Hmax) as [Hin _].
    destruct (get_is_Some _ _ Hin) as [v Hget].
    by destruct (_add_on_device_reuse w a g ctrl d on_done k v
                   Hfind Hne Hmax Hget).
Qed.

Lemma invoke_outcome (w : World) (q : Pending) :
  store_ok (db w) → q ≠ PendingTrue →
  let w' := after (invoke q) w in
  outcome (invoke q) w = Ok tt ∨
  (outcome (invoke q) w = Raise AssertionError ∧
   entries (db w') = [] ∧ wire w' = wire w ∧ calls w' = calls w).
Proof.
  intros Hok Hq. destruct q as [|a g ctrl d on_done|entry on_done]; [done|..].
  - destruct (_add_on_device_outcome w a g ctrl d on_done Hok)
      as [H|(H & He & Hdb & Hwire & _ & Hc)]; [by left|].
    right. simpl in *. by rewrite Hdb.
  - left. unfold_m. simpl. by destruct (_pending (db w)).
Qed.

Lemma step_outcome (w : World) (ev : Event) :
  inv w → marker_first w →
  outcome (step ev) w = Ok tt ∨
  (outcome (step ev) w = Raise AssertionError ∧
   entries (db (exec w ev)) = [] ∧ wire (exec w ev) = wire w ∧
   calls (exec w ev) = calls w).
Proof.
  intros [Hok [Hlen Hbusy]] Hm.
  assert (Hdone : ∀ w0 cb success msg entry,
            store_ok (db w0) → marker_first w0 → _pending (db w0) ≠ [] →
            outcome (done_cb cb success msg entry) w0 = Ok tt ∨
            (outcome (done_cb cb success msg entry) w0 = Raise AssertionError ∧
             entries (db (after (done_cb cb success msg entry) w0)) = [] ∧
             wire (after (done_cb cb success msg entry) w0) = wire w0 ∧
             calls (after (done_cb cb success msg entry) w0) = calls w0)).
  { intros w0 cb success msg entry Hok0 Hm0 Hp0.
    destruct (_pending (db w0)) as [|p [|q rest]] eqn:Ep; [done|..].
    - left. unfold outcome, done_cb, call, LOG, put_self, get_self, mbind,
        M_bind, mret, M_ret.
      destruct cb as [f|f]; simpl; rewrite Ep; simpl; by destruct f.
    - destruct (done_cb_next w0 cb success msg entry p q rest Ep) as [lg Hn].
      unfold outcome, after. rewrite Hn.
      set (w1 := mkWorld _ _ _ _ _).
      apply (invoke_outcome w1 q).
      + by apply (store_ok_ext (db w0)).
      + unfold marker_first in Hm0. rewrite Ep in Hm0. simpl in Hm0.
        by apply Forall_cons in Hm0 as [? _]. }
  destruct ev as [a g ctrl d on_done|entry on_done|i ack|entry|dl|path|].
  - destruct (_pending (db w)) as [|p l] eqn:Ep.
    + assert (Hs : step (AddOnDevice a g ctrl d on_done) w
                   = _add_on_device a g ctrl d on_done w).
      { unfold step, add_on_device, mbind, M_bind, get_self. simpl.
        by rewrite Ep. }
      unfold outcome, exec. rewrite Hs.
      apply (invoke_outcome w (PendingAdd a g ctrl d on_done)); done.
    + left. unfold outcome, step, add_on_device, LOG, put_self, mbind, M_bind,
        get_self. simpl. by rewrite Ep.
  - left. unfold outcome, step, delete_on_device, _delete_on_device, send, LOG,
      put_self, mbind, M_bind, mret, M_ret, get_self. simpl.
    destruct (_pending (db w)); simpl; [|done].
    by destruct (_pending (db w)).
  - unfold outcome, exec, step.
    destruct (waiting w !! i) as [h|] eqn:Ei; [|by left].
    assert (Hp : _pending (db w) ≠ []).
    { apply Hbusy. intros E. by rewrite E in Ei. }
    set (w0 := mkWorld _ _ _ _ _).
    unfold msg_received. destruct ack.
    + unfold mbind, M_bind, get_self, put_self. simpl.
      set (w1 := mkWorld (add_entry _ _) _ _ _ _).
      destruct (h_next h) as [|[msg e] rest]; [|by left].
      assert (Hw1 : wire w1 = wire w ∧ calls w1 = calls w) by done.
      destruct Hw1 as [<- <-]. apply Hdone.
      * by apply store_ok_add_entry.
      * unfold marker_first. simpl.
        by destruct (add_entry_other (db w) (h_entry h)) as (_ & _ & _ & ->).
      * simpl.
        by destruct (add_entry_other (db w) (h_entry h)) as (_ & _ & _ & ->).
    + assert (Hw0 : wire w0 = wire w ∧ calls w0 = calls w) by done.
      destruct Hw0 as [<- <-]. by apply Hdone.
  - by left.
  - by left.
  - by left.
  - by left.
Qed.

Lemma marker_first_run (w : World) (evs : list Event) :
  marker_first w → marker_first (run w evs).
Proof.
  revert w. induction evs as [|ev evs IH]; intros w Hw; simpl; [done|].
  by apply IH, marker_first_exec.
Qed.

(** X17.  The container operations of the protocol never fail.  In
    every world reached from a fresh database by any sequence of
    operations and replies: the dummy [True] stands at the head of
    [_pending] or nowhere, so [self._pending[0]()] never calls it;
    [_pending] is not empty while a handler waits, so [pop(0)] finds an
    element; [_mem_locs] is not empty when [entries] is not, so the
    [min] of the growth strategy is defined; and the [max] of the reuse
    strategy is a key of [unused], so [pop] finds it.  Hence no step
    ends in the TypeError, IndexError, ValueError or KeyError of one of
    these operations; and a step in which the [assert] of an add fires
    leaves [entries] empty, sends nothing and calls nobody back.  Errors
    of the file system, of [Address], [int] and [to_bytes] are outside
    the model and are not spoken of. *)
Theorem reachable_containers_never_fail (a0 : Address)
    (path : option string) (evs : list Event) (ev : Event) :
  let w := run (boot a0 path) evs in
  marker_first w ∧
  (waiting w ≠ [] → _pending (db w) ≠ []) ∧
  (entries (db w) ≠ [] →
   is_Some (py_min (elements (_mem_locs (db w))))) ∧
  (unused (db w) ≠ [] →
   ∃ k u, py_max (PyDict.keys (unused (db w))) = Some k ∧
          PyDict.get (unused (db w)) k = Some u) ∧
  (outcome (step ev) w ≠ Raise TypeError) ∧
  (outcome (step ev) w ≠ Raise IndexError) ∧
  (outcome (step ev) w ≠ Raise ValueError) ∧
  (outcome (step ev) w ≠ Raise KeyError) ∧
  (outcome (step ev) w = Raise AssertionError →
   entries (db (exec w ev)) = [] ∧ wire (exec w ev) = wire w ∧
   calls (exec w ev) = calls w).
Proof.
  simpl. set (w := run (boot a0 path) evs).
  assert (Hm : marker_first w).
  { apply marker_first_run. by constructor. }
  assert (Hinv : inv w) by apply inv_run, inv_boot.
  pose proof (step_outcome w ev Hinv Hm) as Hout.
  destruct Hinv as [Hok [_ Hbusy]].
  repeat apply conj; try done.
  - by apply mem_locs_nonempty.
  - intros Hun.
    destruct (py_max_is_Some (PyDict.keys (unused (db w)))) as [k Hmax].
    { unfold PyDict.keys. by destruct (unused (db w)). }
    destruct (py_max_spec _ _ Hmax) as [Hin _].
    destruct (get_is_Some _ _ Hin) as [u Hget]. by exists k, u.
  - destruct Hout as [->|(-> & _)]; discriminate.
  - destruct Hout as [->|(-> & _)]; discriminate.
  - destruct Hout as [->|(-> & _)]; discriminate.
  - destruct Hout as [->|(-> & _)]; discriminate.
  - intros H. destruct Hout as [Ho|(_ & H1 & H2 & H3)]; [|done].
    rewrite Ho in H. discriminate H.
Qed.

(** ** What a step puts on the wire *)

Lemma invoke_effect (w : World) (q : Pending) :
  let w' := after (invoke q) w in
  addr (db w') = addr (db w) ∧
  ((wire w' = wire w ∧ waiting w' = waiting w ∧
    calls w' = calls w ++ answered (db w) q) ∨
   (∃ m h, wire w' = wire w ++ [m] ∧ waiting w' = waiting w ++ [h] ∧
           calls w' = calls w ∧ msg_ok (addr (db w)) m ∧
           ext_data m = h_entry h ∧ next_ok (addr (db w)) h)).
Proof.
  simpl. split.
  - destruct q as [|a g ctrl d on_done|entry on_done]; simpl; [done|..].
    + unfold_m. simpl. destruct (find (db w) a g ctrl); simpl.
      { by destruct on_done. }
      destruct (0 <? length (entries (db w)))%nat; simpl; [|done].
      destruct (unused (db w)) eqn:Eu; simpl.
      * destruct (py_min _); simpl; [|done].
        destruct (find_mem_loc _ _); simpl; by destruct (_pending (db w)).
      * destruct (py_max _); simpl; [|done].
        destruct (PyDict.get _ _); simpl; [|done].
        by destruct (_pending (db w)).
    + unfold_m. simpl. by destruct (_pending (db w)).
  - destruct q as [|a g ctrl d on_done|entry on_done]; simpl.
    + left. unfold after, raise. simpl. by rewrite app_nil_r.
    + unfold_m. simpl. destruct (find (db w) a g ctrl) eqn:Ef; simpl.
      { left. destruct on_done; simpl; by rewrite ?app_nil_r. }
      assert (Hnil : match on_done with Some _ | None => [] end = @nil Call)
        by by destruct on_done.
      rewrite Hnil, app_nil_r.
      destruct (0 <? length (entries (db w)))%nat; simpl; [|by left].
      destruct (unused (db w)) eqn:Eu; simpl.
      * destruct (py_min _); simpl; [|by left].
        destruct (find_mem_loc _ _); simpl.
        -- right. eexists _, _.
           destruct (_pending (db w)); simpl;
             (repeat apply conj; try reflexivity;
              repeat constructor).
        -- left. by destruct (_pending (db w)).
      * destruct (py_max _); simpl; [|by left].
        destruct (PyDict.get _ _); simpl; [|by left].
        right. eexists _, _.
        destruct (_pending (db w)); simpl;
          (repeat apply conj; try reflexivity; repeat constructor).
    + right. unfold_m. simpl. eexists _, _.
      destruct (_pending (db w)); simpl;
        (repeat apply conj; try reflexivity; repeat constructor).
Qed.

Lemma done_cb_effect w cb success msg entry :
  let w' := after (done_cb cb success msg entry) w in
  addr (db w') = addr (db w) ∧
  ((wire w' = wire w ∧ waiting w' = waiting w ∧
    (calls w' = calls w ∨ ∃ c, calls w' = calls w ++ [c])) ∨
   (∃ m h, wire w' = wire w ++ [m] ∧ waiting w' = waiting w ++ [h] ∧
           calls w' = calls w ∧ msg_ok (addr (db w)) m ∧
           ext_data m = h_entry h ∧ next_ok (addr (db w)) h)).
Proof.
  simpl. destruct (_pending (db w)) as [|p [|q rest]] eqn:Ep.
  - unfold after, done_cb, LOG, put_self, get_self, raise, mbind, M_bind,
      mret, M_ret.
    destruct cb; simpl; rewrite Ep; simpl; (split; [done|]); left; auto.
  - destruct (done_cb_last w cb success msg entry p Ep) as (-> & -> & -> & ->).
    split; [done|]. left. repeat split.
    destruct (captured cb); [right; by eexists | left; by rewrite app_nil_r].
  - destruct (done_cb_next w cb success msg entry p q rest Ep) as [lg Hn].
    unfold after. rewrite Hn. set (w1 := mkWorld _ _ _ _ _).
    destruct (invoke_effect w1 q) as [Ha [(H1 & H2 & H3)|H]].
    + split; [done|]. left. repeat split; try done.
      unfold after in H3. rewrite H3. simpl.
      destruct q as [|a g ctrl d [f|]|]; simpl; rewrite ?app_nil_r; auto.
      destruct (find _ _ _ _); simpl; rewrite ?app_nil_r; auto.
      right. by eexists.
    + split; [done|]. by right.
Qed.

Lemma last_snoc_inv {A : Type} (l : list A) (x y : A) :
  last (l ++ [x]) = Some y → x = y.
Proof. rewrite last_snoc. by intros [= ->]. Qed.

Lemma wire_ok_sent (a0 : Address) (w w' : World) (m : Msg)
    (h : DeviceDbModify) :
  addr (db w') = a0 → Forall (msg_ok a0) (wire w) → waiting w = [] →
  wire w' = wire w ++ [m] → waiting w' = waiting w ++ [h] →
  msg_ok a0 m → ext_data m = h_entry h → next_ok a0 h →
  wire_ok a0 w'.
Proof.
  intros Ha Hwire Hw Hw' Hwait Hm He Hn. rewrite Hw in Hwait. simpl in Hwait.
  unfold wire_ok. rewrite Hw', Hwait. repeat apply conj; try done.
  - apply Forall_app. split; [done | by apply Forall_singleton].
  - by apply Forall_singleton.
  - simpl. intros h' [= <-]. exists m. by rewrite last_snoc.
Qed.

Lemma wire_ok_exec (a0 : Address) (w : World) (ev : Event) :
  inv w → wire_ok a0 w → wire_ok a0 (exec w ev).
Proof.
  intros [Hok [Hlen Hbusy]] (Ha & Hwire & Hnext & Hlast).
  assert (Hsame : ∀ w', addr (db w') = a0 → wire w' = wire w →
            waiting w' = waiting w → wire_ok a0 w').
  { intros w' Ha' Hw' Hwt'. repeat apply conj; try done.
    - by rewrite Hw'.
    - by rewrite Hwt'.
    - by rewrite Hw', Hwt'. }
  assert (Hidle : ∀ w', addr (db w') = a0 → wire w' = wire w →
            waiting w' = [] → wire_ok a0 w').
  { intros w' Ha' Hw' Hwt'. repeat apply conj; try done.
    - by rewrite Hw'.
    - by rewrite Hwt'.
    - by rewrite Hwt'. }
  assert (Hreq : ∀ req c, continuation req = Some c →
            wire_ok a0 (exec w req)).
  { intros req c Hc. destruct (_pending (db w)) as [|p l] eqn:Ep.
    - assert (Hw : waiting w = []).
      { destruct (waiting w); [done|]. exfalso. by apply Hbusy. }
      rewrite (exec_request_idle w req c Hc Ep).
      destruct (invoke_effect w c) as [Ha' [(H1 & H2 & _)|H]].
      + apply Hsame; congruence.
      + destruct H as (m & h & H1 & H2 & _ & Hm & He & Hn).
        rewrite Ha in Hm, Hn.
        eapply wire_ok_sent; eauto. congruence.
    - destruct (exec_request_busy w req c Hc) as (Hdb & H1 & H2 & _);
        [by rewrite Ep|].
      apply Hsame; try done. simpl in Hdb. by rewrite Hdb. }
  destruct ev as [a g ctrl d on_done|entry on_done|i ack|entry|dl|path|].
  - by eapply Hreq.
  - by eapply Hreq.
  - unfold exec, step. destruct (waiting w !! i) as [h|] eqn:Ei;
      [|by apply Hsame].
    destruct (waiting w) as [|h0 [|h1 l]] eqn:Ew; simpl in *; try lia;
      [done|].
    destruct i as [|i]; [|done]. simpl in Ei. injection Ei as ->.
    simpl. apply Forall_cons in Hnext as [Hn _].
    assert (Hcb : ∀ w0 cb success msg entry,
              addr (db w0) = a0 → wire w0 = wire w → waiting w0 = [] →
              wire_ok a0 (after (done_cb cb success msg entry) w0)).
    { intros w0 cb success msg entry Ha0 Hw0 Hwt0.
      destruct (done_cb_effect w0 cb success msg entry)
        as [Ha' [(H1 & H2 & _)|H]].
      - repeat apply conj.
        + congruence.
        + rewrite H1, Hw0. done.
        + rewrite H2, Hwt0. done.
        + rewrite H2, Hwt0. done.
      - destruct H as (m & h' & H1 & H2 & _ & Hm & He & Hn').
        rewrite Ha0 in Hm, Hn'.
        eapply (wire_ok_sent a0 w0); eauto; [congruence | by rewrite Hw0]. }
    unfold msg_received. destruct ack.
    + unfold mbind, M_bind, get_self, put_self. simpl.
      assert (Ha1 : addr (add_entry (db w) (h_entry h)) = a0).
      { by destruct (add_entry_other (db w) (h_entry h)) as (-> & _). }
      destruct (h_next h) as [|[msg e] rest] eqn:En.
      * by apply Hcb.
      * unfold send. simpl. unfold next_ok in Hn. rewrite En in Hn.
        apply Forall_cons in Hn as [[Hm He] Hrest]. simpl in Hm, He.
        repeat apply conj; simpl; try done.
        -- apply Forall_app. split; [done | by apply Forall_singleton].
        -- by apply Forall_singleton.
        -- intros h' [= <-]. exists msg. by rewrite last_snoc.
    + by apply Hcb.
  - apply Hsame; try done. unfold exec, step, mbind, M_bind, get_self,
      put_self. simpl.
    by destruct (add_entry_other (db w) entry) as (-> & _).
  - by apply Hsame.
  - by apply Hsame.
  - by apply Hsame.
Qed.

(** X18.  What the database writes to the device.  In every world
    reached from a fresh database of device [a0]: the address of the
    database is still [a0]; every message sent is the extended command
    0x2F 0x00 addressed to [a0] itself; and the record the waiting
    handler will commit when its write is acknowledged is the record
    carried by the last message sent, as is the record of each followup
    it holds. *)
Theorem reachable_writes (a0 : Address) (path : option string)
    (evs : list Event) :
  wire_ok a0 (run (boot a0 path) evs).
Proof.
  assert (H : ∀ w, inv w → wire_ok a0 w → wire_ok a0 (run w evs)).
  { induction evs as [|ev evs IH]; intros w Hi Hw; simpl; [done|].
    apply IH; [by apply inv_exec | by apply wire_ok_exec]. }
  apply H; [apply inv_boot|].
  repeat apply conj; simpl; try done; by constructor.
Qed.

(** X19.  A step has at most one effect outside the database.  Whatever
    the world, an operation or a reply sends one write, or calls one
    callback once, or does neither; it never does both and never sends
    two writes. *)
Theorem exec_one_write_or_one_call (w : World) (ev : Event) :
  let w' := exec w ev in
  (wire w' = wire w ∧ calls w' = calls w) ∨
  (∃ m, wire w' = wire w ++ [m] ∧ calls w' = calls w) ∨
  (∃ c, wire w' = wire w ∧ calls w' = calls w ++ [c]).
Proof.
  simpl.
  assert (Hinv : ∀ w0 q, wire w0 = wire w → calls w0 = calls w →
    (wire (after (invoke q) w0) = wire w ∧
     calls (after (invoke q) w0) = calls w) ∨
    (∃ m, wire (after (invoke q) w0) = wire w ++ [m] ∧
          calls (after (invoke q) w0) = calls w) ∨
    (∃ c, wire (after (invoke q) w0) = wire w ∧
          calls (after (invoke q) w0) = calls w ++ [c])).
  { intros w0 q Hw0 Hc0.
    destruct (invoke_effect w0 q) as [_ [(H1 & _ & H3)|H]].
    - rewrite H1, H3, Hw0, Hc0.
      destruct q as [|a g ctrl d [f|]|]; simpl; rewrite ?app_nil_r; auto.
      destruct (find _ _ _ _); simpl; rewrite ?app_nil_r; auto.
      right. right. by eexists.
    - destruct H as (m & h & H1 & _ & H3 & _).
      right. left. exists m. by rewrite H1, H3, Hw0, Hc0. }
  assert (Hcb : ∀ w0 cb success msg entry,
    wire w0 = wire w → calls w0 = calls w →
    (wire (after (done_cb cb success msg entry) w0) = wire w ∧
     calls (after (done_cb cb success msg entry) w0) = calls w) ∨
    (∃ m, wire (after (done_cb cb success msg entry) w0) = wire w ++ [m] ∧
          calls (after (done_cb cb success msg entry) w0) = calls w) ∨
    (∃ c, wire (after (done_cb cb success msg entry) w0) = wire w ∧
          calls (after (done_cb cb success msg entry) w0) = calls w ++ [c])).
  { intros w0 cb success msg entry Hw0 Hc0.
    destruct (done_cb_effect w0 cb success msg entry)
      as [_ [(H1 & _ & [H3|[c H3]])|H]].
    - left. by rewrite H1, H3, Hw0, Hc0.
    - right. right. exists c. by rewrite H1, H3, Hw0, Hc0.
    - destruct H as (m & h & H1 & _ & H3 & _).
      right. left. exists m. by rewrite H1, H3, Hw0, Hc0. }
  assert (Hreq : ∀ req c, continuation req = Some c →
    (wire (exec w req) = wire w ∧ calls (exec w req) = calls w) ∨
    (∃ m, wire (exec w req) = wire w ++ [m] ∧ calls (exec w req) = calls w) ∨
    (∃ c, wire (exec w req) = wire w ∧ calls (exec w req) = calls w ++ [c])).
  { intros req c Hc. destruct (_pending (db w)) as [|p l] eqn:Ep.
    - rewrite (exec_request_idle w req c Hc Ep). by apply Hinv.
    - destruct (exec_request_busy w req c Hc) as (_ & H1 & _ & H3);
        [by rewrite Ep|].
      left. by split. }
  destruct ev as [a g ctrl d on_done|entry on_done|i ack|entry|dl|path|].
  - by eapply Hreq.
  - by eapply Hreq.
  - unfold exec, step. destruct (waiting w !! i) as [h|]; [|by left].
    unfold msg_received. destruct ack; [|by apply Hcb].
    unfold mbind, M_bind, get_self, put_self. simpl.
    destruct (h_next h) as [|[msg e] rest]; [by apply Hcb|].
    right. left. by exists msg.
  - by left.
  - by left.
  - by left.
  - by left.
Qed.

(** ** [clear] while an exchange is running *)

(** X20.  [clear] empties the record store and resets the delta, and it
    cancels nothing: [_pending] is kept and the handler goes on waiting.
    When the write it waits for is then acknowledged, its record is
    committed into the cleared database, which afterwards holds that one
    slot. *)
Theorem clear_keeps_exchange (w : World) (h : DeviceDbModify) :
  waiting w = [h] →
  let w1 := exec w Clear in
  let w2 := exec w1 (Reply 0 true) in
  (__len__ (db w1) = 0%nat ∧ unused (db w1) = [] ∧
   (∀ g, find_group (db w1) g = []) ∧ _mem_locs (db w1) = ∅ ∧
   is_current (db w1) None = true ∧
   _pending (db w1) = _pending (db w) ∧ waiting w1 = [h] ∧
   wire w1 = wire w) ∧
  entries (db w2) =
    (if in_use (DeviceEntry.db_flags (h_entry h))
     then [(DeviceEntry.mem_loc (h_entry h), h_entry h)] else []) ∧
  _mem_locs (db w2) = {[DeviceEntry.mem_loc (h_entry h)]}.
Proof.
  intros Hw. simpl.
  assert (Hw1 : exec w Clear =
                mkWorld (clear (db w)) (wire w) (waiting w) (calls w)
                  (logged w)) by done.
  rewrite Hw1. split; [by rewrite Hw|].
  set (w1 := mkWorld _ _ _ _ _).
  assert (He : entries (add_entry (db w1) (h_entry h)) =
               if in_use (DeviceEntry.db_flags (h_entry h))
               then [(DeviceEntry.mem_loc (h_entry h), h_entry h)] else []).
  { rewrite add_entry_entries. by destruct (in_use _). }
  assert (Hm : _mem_locs (add_entry (db w1) (h_entry h)) =
               {[DeviceEntry.mem_loc (h_entry h)]}).
  { rewrite add_entry_mem_locs. simpl. apply union_empty_r_L. }
  destruct (h_next h) as [|[msg e] rest] eqn:En.
  - rewrite (exec_reply_ack_final w1 h Hw En).
    set (w0 := mkWorld (add_entry _ _) _ _ _ _).
    destruct (done_cb_store_kept w0 (h_on_done h) true
                (HandlerText true) (Some (h_entry h)))
      as (H1 & _ & H2 & _).
    rewrite H1, H2. by split.
  - rewrite (exec_reply_ack_next w1 h msg e rest Hw En). by split.
Qed.

(** X20 on [one_free], cleared while the write that reuses the freed
    slot awaits its reply. *)
Lemma clear_keeps_exchange_witness :
  let w := exec one_free (AddOnDevice P2 2 false None None) in
  let h := mkHandler (DeviceEntry.update_from free_rec P2 2 false bytes3)
             (add_done_cb None) [] in
  waiting w = [h] ∧
  PyDict.keys (entries (db (exec (exec w Clear) (Reply 0 true)))) = [0x0ff0].
Proof.
  split; [reflexivity|].
  destruct (clear_keeps_exchange
              (exec one_free (AddOnDevice P2 2 false None None))
              (mkHandler (DeviceEntry.update_from free_rec P2 2 false bytes3)
                 (add_done_cb None) []) eq_refl) as (_ & H & _).
  cbv zeta. rewrite H. reflexivity.
Defined.
